(** * Music Events Agent

    A shallow embedding of the aggregation pipeline of the repository
    ([main.py] and [ticketmaster.py]): the two HTML search adapters, the
    Ticketmaster API adapter, the geocoding and distance helpers and the
    [/scrape] endpoint that runs them.

    Python values that come from outside (JSON documents, scraped text) are
    kept dynamically typed, as the code treats them.  Floating-point numbers
    are IEEE binary64, as Python's [float].  Everything the program reaches
    over the network (Nominatim, the scraped sites, the Ticketmaster API, the
    database) and the library routines it calls ([geodesic], [float] on a
    string) are collaborators: they are fields of an environment record and
    every theorem quantifies over them. *)

From Stdlib Require Import List String Ascii ZArith Bool Lia.
From Stdlib Require Import Floats Uint63 DecimalString.
Import ListNotations.
Local Open Scope string_scope.
Set Warnings "-inexact-float,-register-all".

(** ** Python values *)

Module Py.

(** The values [json.loads] can return, which are also the values the event
    dictionaries hold. *)
Inductive pyval : Type :=
| PNone
| PBool (b : bool)
| PInt (z : Z)
| PFloat (f : float)
| PStr (s : string)
| PList (l : list pyval)
| PDict (d : list (string * pyval)).

(** [bool(x)] for a float: zero of either sign is false, NaN is true. *)
Definition float_truthy (f : float) : bool := negb (PrimFloat.eqb f 0%float).

(** [bool(v)], the test behind [if v:]. *)
Definition truthy (v : pyval) : bool :=
  match v with
  | PNone => false
  | PBool b => b
  | PInt z => negb (Z.eqb z 0)
  | PFloat f => float_truthy f
  | PStr s => negb (String.eqb s "")
  | PList l => match l with [] => false | _ => true end
  | PDict d => match d with [] => false | _ => true end
  end.

(** Look a key up in a dictionary, given as its list of items. *)
Fixpoint dict_get (d : list (string * pyval)) (k : string) : option pyval :=
  match d with
  | [] => None
  | (k', v) :: d' => if String.eqb k' k then Some v else dict_get d' k
  end.

(** [v.get(k, default)].  [None] stands for the [AttributeError] raised when
    [v] is not a dictionary. *)
Definition py_get (v : pyval) (k : string) (default : pyval) : option pyval :=
  match v with
  | PDict d => Some (match dict_get d k with Some x => x | None => default end)
  | _ => None
  end.

Definition is_str (v : pyval) (s : string) : bool :=
  match v with PStr t => String.eqb t s | _ => false end.

(** [k in v] for a string [k].  [None] stands for the [TypeError] raised when
    [v] is not a container. *)
Definition py_contains (v : pyval) (k : string) : option bool :=
  match v with
  | PDict d => Some (match dict_get d k with Some _ => true | None => false end)
  | PList l => Some (existsb (fun x => is_str x k) l)
  | PStr s => Some (match String.index 0 k s with Some _ => true | None => false end)
  | _ => None
  end.

(** [v[k]] for a string [k]: only a dictionary can be indexed by a string. *)
Definition py_getitem (v : pyval) (k : string) : option pyval :=
  match v with
  | PDict d => dict_get d k
  | _ => None
  end.

Fixpoint chars (s : string) : list pyval :=
  match s with
  | EmptyString => []
  | String c s' => PStr (String c EmptyString) :: chars s'
  end.

(** The items [for x in v] goes through; [None] when [v] is not iterable. *)
Definition py_iter (v : pyval) : option (list pyval) :=
  match v with
  | PList l => Some l
  | PDict d => Some (map (fun kv => PStr (fst kv)) d)
  | PStr s => Some (chars s)
  | _ => None
  end.

(** [v[0]]; [None] stands for the [IndexError], [KeyError] (the keys of a
    JSON object are strings) or [TypeError] raised otherwise. *)
Definition py_index0 (v : pyval) : option pyval :=
  match v with
  | PList (x :: _) => Some x
  | PStr (String c _) => Some (PStr (String c EmptyString))
  | _ => None
  end.

(** [len(v)]; [None] stands for the [TypeError] of a value without length. *)
Definition py_len (v : pyval) : option nat :=
  match v with
  | PList l => Some (List.length l)
  | PDict d => Some (List.length d)
  | PStr s => Some (String.length s)
  | _ => None
  end.

(** An integer small enough to be a float exactly. *)
Definition float_of_small_int (z : Z) : float :=
  if (z <? 0)%Z
  then PrimFloat.opp (PrimFloat.of_uint63 (Uint63.of_Z (- z)))
  else PrimFloat.of_uint63 (Uint63.of_Z z).

(** [s.replace(a, b)] for single characters. *)
Fixpoint replace_char (a b : ascii) (s : string) : string :=
  match s with
  | EmptyString => EmptyString
  | String c s' => String (if Ascii.eqb c a then b else c) (replace_char a b s')
  end.

End Py.
Import Py.

(** ** Events, the outside world and the collaborators *)

Definition coords : Type := float * float.

(** The dictionary both adapters build for an event.  The API adapter stores
    what the JSON document holds under [name], [url] and [localDate] without
    looking at it, so these three fields are Python values. *)
Record Event : Type := mkEvent {
  title : pyval;
  artist : string;
  date_str : pyval;
  location : string;
  source : string;
  ticket_link : pyval;
  coordinates : option coords;
  scraped_at : string
}.

(** An HTTP request: a plain URL (HTML adapters) or a URL with query
    parameters (API adapter). *)
Inductive Request : Type :=
| HtmlGet (url : string)
| ApiGet (url : string) (params : list (string * pyval)).

(** What has happened so far: the lookups sent to the geocoder, the HTTP
    requests sent, how often the clock was read, how many one-second pauses
    were taken, whether the scraper's HTTP session is open, and the rows
    written to the database. *)
Record World : Type := mkWorld {
  geo_calls : list string;
  http_calls : list Request;
  clock_reads : nat;
  sleeps : nat;
  session_open : bool;
  db_rows : list Event
}.

(** A candidate element of a search page, seen through the four lookups
    [parse_eventim_event] makes on it: each field is [None] when
    [element.find] finds nothing, and otherwise the stripped text of the
    element found (for the link, the value of its [href]). *)
Record Element : Type := mkElement {
  title_elem : option string;
  date_elem : option string;
  location_elem : option string;
  link_elem : option string
}.

(** Answer of [Nominatim.geocode]. *)
Inductive GeoReply : Type :=
| GeoFound (latitude longitude : float)
| GeoNotFound
| GeoError.

(** Answer to a search-page request: an exception, or a status and the
    elements [soup.find_all] selects from the body. *)
Inductive HtmlReply : Type :=
| HtmlError
| HtmlPage (status : Z) (candidates : list Element).

(** Answer to an API request: an exception, or a status and what
    [response.json()] gives ([None] when it raises). *)
Inductive ApiReply : Type :=
| ApiError
| ApiResponse (status : Z) (json : option pyval).

(** A statement [save_events_to_db] sends to the database: the purge of the
    rows older than seven days, with the clock reading it counts back from,
    or the insert of the row of one event. *)
Inductive Statement : Type :=
| Purge (now : string)
| Insert (row : Event).

(** The collaborators.  Those that reach outside answer depending on the
    whole history, so the same question may get different answers. *)
Record Env : Type := mkEnv {
  (** [Nominatim.geocode(name)] *)
  geocode : World -> string -> GeoReply;
  (** [geodesic(a, b).kilometers]; [None] when it raises *)
  geodesic : coords -> coords -> option float;
  (** [session.get(url)] followed by reading and parsing the body *)
  http_html : World -> string -> HtmlReply;
  (** [session.get(url, params=params)] followed by [response.json()] *)
  http_api : World -> string -> list (string * pyval) -> ApiReply;
  (** [datetime.now().isoformat()] *)
  now_iso : World -> string;
  (** [float(s)] for a string; [None] when it raises [ValueError] *)
  float_of_str : string -> option float;
  (** [float(z)] for an integer beyond 2^53: rounded, or [OverflowError] *)
  float_of_big_int : Z -> option float;
  (** how an f-string renders a value that is not a string *)
  format_value : pyval -> string;
  (** [os.getenv("TM_API_KEY")] *)
  tm_api_key : option string;
  (** [asyncpg.connect(DATABASE_URL)]: [Some msg] when it raises, with
      [msg] the text of the exception *)
  db_connect : World -> option string;
  (** [conn.execute(...)] for one statement: [Some msg] when it raises *)
  db_execute : World -> Statement -> option string;
  (** [conn.close()]: [Some msg] when it raises *)
  db_close : World -> option string
}.

Definition log_geocode (name : string) (w : World) : World :=
  mkWorld (geo_calls w ++ [name]) (http_calls w) (clock_reads w) (sleeps w)
          (session_open w) (db_rows w).

Definition log_http (r : Request) (w : World) : World :=
  mkWorld (geo_calls w) (http_calls w ++ [r]) (clock_reads w) (sleeps w)
          (session_open w) (db_rows w).

Definition tick (w : World) : World :=
  mkWorld (geo_calls w) (http_calls w) (S (clock_reads w)) (sleeps w)
          (session_open w) (db_rows w).

Definition sleep (w : World) : World :=
  mkWorld (geo_calls w) (http_calls w) (clock_reads w) (S (sleeps w))
          (session_open w) (db_rows w).

Definition set_session (b : bool) (w : World) : World :=
  mkWorld (geo_calls w) (http_calls w) (clock_reads w) (sleeps w)
          b (db_rows w).

Definition write_rows (rows : list Event) (w : World) : World :=
  mkWorld (geo_calls w) (http_calls w) (clock_reads w) (sleeps w)
          (session_open w) (db_rows w ++ rows).

Definition world0 : World := mkWorld [] [] 0 0 false [].

(** Computations that change the world and return a value. *)
Definition M (A : Type) : Type := World -> A * World.

Definition ret {A : Type} (a : A) : M A := fun w => (a, w).

Definition bind {A B : Type} (m : M A) (k : A -> M B) : M B :=
  fun w => let (a, w') := m w in k a w'.

Notation "x <- m ;; k" := (bind m (fun x => k))
  (at level 61, m at next level, right associativity).

(** The result of a call that may raise: its value, or the text of the
    exception. *)
Inductive res (A : Type) : Type :=
| Ok (a : A)
| Raise (msg : string).
Arguments Ok {A} a.
Arguments Raise {A} msg.

(** Python's f-string rendering: a string as it is. *)
Definition fmt (E : Env) (v : pyval) : string :=
  match v with
  | PStr s => s
  | _ => format_value E v
  end.

(** Python's [float(v)]; [None] when it raises. *)
Definition py_float (E : Env) (v : pyval) : option float :=
  match v with
  | PFloat f => Some f
  | PInt z =>
      if (Z.abs z <=? 9007199254740992)%Z then Some (float_of_small_int z)
      else float_of_big_int E z
  | PBool b => Some (if b then 1%float else 0%float)
  | PStr s => float_of_str E s
  | PNone | PList _ | PDict _ => None
  end.

(** ** ticketmaster.py *)

Module Ticketmaster.

(** Wroclaw, the reference point. *)
Definition WROCLAW_COORDS : coords := (51.1079%float, 17.0385%float).
Definition MAX_DISTANCE_KM : float := 1000%float.

Definition base_url : string := "https://app.ticketmaster.com/discovery/v2/events".

(** What one turn of the loop over the events of a response comes to: the
    value it computed, an exception (caught by the loop's [except], which
    goes on to the next event), or the [continue] of an event too far away. *)
Inductive Step (A : Type) : Type :=
| Value (a : A)
| Raised
| Skipped.
Arguments Value {A} a.
Arguments Raised {A}.
Arguments Skipped {A}.

Definition step_bind {A B : Type} (s : Step A) (k : A -> Step B) : Step B :=
  match s with
  | Value a => k a
  | Raised => Raised
  | Skipped => Skipped
  end.

(** An operation that raises when it has no result. *)
Definition try_ {A : Type} (o : option A) : Step A :=
  match o with
  | Some a => Value a
  | None => Raised
  end.

Notation "x <~ s ;; k" := (step_bind s (fun x => k))
  (at level 61, s at next level, right associativity).

Section Scraper.
Variable E : Env.

(** [parse_events], lines 77 to 92: the coordinates of a venue.
<<
    if venue.get("location"):
        lat = float(venue["location"].get("latitude", 0))
        lon = float(venue["location"].get("longitude", 0))
        if lat and lon:
            distance = geodesic(WROCLAW_COORDS, (lat, lon)).kilometers
            if distance > MAX_DISTANCE_KM:
                continue
            coordinates = (lat, lon)
        else:
            coordinates = None
    else:
        coordinates = None
>> *)
Definition venue_coordinates (venue : pyval) : Step (option coords) :=
  loc <~ try_ (py_get venue "location" PNone) ;;
  if truthy loc then
    lat_raw <~ try_ (py_get loc "latitude" (PInt 0)) ;;
    lat <~ try_ (py_float E lat_raw) ;;
    lon_raw <~ try_ (py_get loc "longitude" (PInt 0)) ;;
    lon <~ try_ (py_float E lon_raw) ;;
    if float_truthy lat && float_truthy lon then
      distance <~ try_ (geodesic E WROCLAW_COORDS (lat, lon)) ;;
      if PrimFloat.ltb MAX_DISTANCE_KM distance then Skipped
      else Value (Some (lat, lon))
    else Value None
  else Value None.

(** [parse_events], lines 72 to 74: the location text of a venue.
<<
    city = venue.get("city", {}).get("name", "")
    country = venue.get("country", {}).get("countryCode", "")
    location = f"{city}, {country}"
>> *)
Definition venue_place (venue : pyval) : Step string :=
  city_obj <~ try_ (py_get venue "city" (PDict [])) ;;
  city <~ try_ (py_get city_obj "name" (PStr "")) ;;
  country_obj <~ try_ (py_get venue "country" (PDict [])) ;;
  country <~ try_ (py_get country_obj "countryCode" (PStr "")) ;;
  Value (fmt E city ++ ", " ++ fmt E country).

(** [parse_events], lines 69 to 95: location text and coordinates.
<<
    venues = event.get("_embedded", {}).get("venues", [])
    if venues:
        venue = venues[0]
        ...
    else:
        location = "Unknown"
        coordinates = None
>> *)
Definition event_place (event : pyval) : Step (string * option coords) :=
  embedded <~ try_ (py_get event "_embedded" (PDict [])) ;;
  venues <~ try_ (py_get embedded "venues" (PList [])) ;;
  if truthy venues then
    venue <~ try_ (py_index0 venues) ;;
    location <~ venue_place venue ;;
    coordinates <~ venue_coordinates venue ;;
    Value (location, coordinates)
  else Value ("Unknown", None).

(** [parse_events], lines 61 to 66: name, link and date. *)
Definition event_head (event : pyval) : Step (pyval * pyval * pyval) :=
  name <~ try_ (py_get event "name" (PStr "")) ;;
  url <~ try_ (py_get event "url" (PStr "")) ;;
  dates_obj <~ try_ (py_get event "dates" (PDict [])) ;;
  dates <~ try_ (py_get dates_obj "start" (PDict [])) ;;
  date_str <~ try_ (py_get dates "localDate" (PStr "")) ;;
  Value (name, url, date_str).

(** The body of the loop of [parse_events] for one event (lines 59 to 110).
    The clock is read when the dictionary is built, so only for an event
    that is appended. *)
Definition parse_event (event : pyval) (artist : string) : M (Step Event) :=
  fun w =>
    match (head <~ event_head event ;;
           place <~ event_place event ;;
           Value (head, place)) with
    | Value (name, url, date_str, (location, coordinates)) =>
        (Value (mkEvent name artist date_str location "ticketmaster" url
                        coordinates (now_iso E w)),
         tick w)
    | Raised => (Raised, w)
    | Skipped => (Skipped, w)
    end.

(** The loop of [parse_events]: the events appended, in order. *)
Fixpoint parse_event_list (events : list pyval) (artist : string)
  : M (list Event) :=
  match events with
  | [] => ret []
  | event :: rest =>
      s <- parse_event event artist ;;
      tail <- parse_event_list rest artist ;;
      ret (match s with Value e => e :: tail | _ => tail end)
  end.

(** [parse_events(data, artist)].  [None] stands for an exception that
    leaves the function: the tests on [data] and the start of the loop are
    outside the [try]. *)
Definition parse_events (data : pyval) (artist : string)
  : M (option (list Event)) :=
  fun w =>
    match py_contains data "_embedded" with
    | None => (None, w)
    | Some false => (Some [], w)
    | Some true =>
        match py_getitem data "_embedded" with
        | None => (None, w)
        | Some embedded =>
            match py_contains embedded "events" with
            | None => (None, w)
            | Some false => (Some [], w)
            | Some true =>
                match py_getitem embedded "events" with
                | None => (None, w)
                | Some events =>
                    match py_iter events with
                    | None => (None, w)
                    | Some items =>
                        let (found, w') := parse_event_list items artist w in
                        (Some found, w')
                    end
                end
            end
        end
    end.

(** The length printed by the debugging line of [search_artist_events],
    [len(data.get('_embedded', {}).get('events', []))]; [None] when computing
    it raises. *)
Definition debug_count (data : pyval) : option nat :=
  match py_get data "_embedded" (PDict []) with
  | None => None
  | Some embedded =>
      match py_get embedded "events" (PList []) with
      | None => None
      | Some events => py_len events
      end
  end.

Definition search_params (api_key : pyval) (artist : string)
  : list (string * pyval) :=
  [("apikey", api_key); ("keyword", PStr artist); ("size", PInt 100);
   ("countryCode", PStr "PL,DE,CZ,SK"); ("classificationName", PStr "Music");
   ("sort", PStr "date,asc")].

Definition api_key_value : pyval :=
  match tm_api_key E with
  | Some k => PStr k
  | None => PNone
  end.

(** [search_artist_events(session, artist)]: every exception of the request,
    of decoding the body, of the debugging line and of [parse_events] is
    caught and gives the empty list, as does a status other than 200 (the
    [print] under that [else] stands in the source at the indentation of the
    [else] itself; it is read as its body). *)
Definition search_artist_events (artist : string) : M (list Event) :=
  fun w =>
    let params := search_params api_key_value artist in
    let w1 := log_http (ApiGet base_url params) w in
    match http_api E w base_url params with
    | ApiError => ([], w1)
    | ApiResponse status body =>
        if (status =? 200)%Z then
          match body with
          | None => ([], w1)
          | Some data =>
              match debug_count data with
              | None => ([], w1)
              | Some _ =>
                  match parse_events data artist w1 with
                  | (Some found, w2) => (found, w2)
                  | (None, w2) => ([], w2)
                  end
              end
          end
        else ([], w1)
    end.

(** The loop of [scrape_events] over the artists. *)
Fixpoint search_all (artists : list string) : M (list Event) :=
  match artists with
  | [] => ret []
  | artist :: rest =>
      events <- search_artist_events artist ;;
      more <- search_all rest ;;
      ret (events ++ more)%list
  end.

(** [scrape_events(artists)]: nothing when the key is missing or empty,
    else the events of every artist in turn. *)
Definition scrape_events (artists : list string) : M (res (list Event)) :=
  match tm_api_key E with
  | None => ret (Ok [])
  | Some key =>
      if String.eqb key "" then ret (Ok [])
      else all_events <- search_all artists ;; ret (Ok all_events)
  end.

End Scraper.
End Ticketmaster.

(** ** main.py *)

Module Main.

(** Wroclaw, the reference point. *)
Definition WROCLAW_COORDS : coords := (51.1079%float, 17.0385%float).
Definition MAX_DISTANCE_KM : float := 700%float.

Definition TARGET_ARTISTS : list string :=
  ["Tiësto"; "David Guetta"; "Martin Garrix"; "Armin van Buuren";
   "Calvin Harris"; "Hardwell"; "Dimitri Vegas & Like Mike";
   "Fisher"; "Charlotte de Witte"; "Carl Cox"; "Adam Beyer";
   "Amelie Lens"; "Tale Of Us"; "Boris Brejcha"; "Kolsch"].

(** What the [/scrape] endpoint ends with: the dictionary it returns, or the
    [HTTPException] with status 500 it raises. *)
Inductive Outcome : Type :=
| Returned (body : list (string * pyval))
| HTTP500 (detail : string).

Section EventScraper.
Variable E : Env.

Definition get_session : M unit := fun w => (tt, set_session true w).

Definition close_session : M unit := fun w => (tt, set_session false w).

(** [get_city_coordinates(city_name)]: one lookup; a place not found and an
    exception of the geocoder both give [None]. *)
Definition get_city_coordinates (city_name : string) : M (option coords) :=
  fun w =>
    let w' := log_geocode city_name w in
    match geocode E w city_name with
    | GeoFound latitude longitude => (Some (latitude, longitude), w')
    | GeoNotFound => (None, w')
    | GeoError => (None, w')
    end.

(** [is_within_range(city_coords)]: an exception of the distance gives
    [False]. *)
Definition is_within_range (city_coords : coords) : bool :=
  match geodesic E WROCLAW_COORDS city_coords with
  | Some distance => PrimFloat.leb distance MAX_DISTANCE_KM
  | None => false
  end.

(** The link of a candidate: a path is put behind the site's address. *)
Definition resolve_link (source : string) (link : option string) : string :=
  match link with
  | Some href =>
      if String.prefix "/" href then "https://www." ++ source ++ href
      else href
  | None => ""
  end.

(** The location text of a candidate, with its default. *)
Definition location_text (element : Element) : string :=
  match location_elem element with Some text => text | None => "Unknown" end.

(** [parse_eventim_event(element, artist, source)]; [None] is the event
    dropped.  The four lookups on the element are given by the record and
    the geocoder's exceptions are caught in [get_city_coordinates], so
    nothing here reaches the [except] around the body. *)
Definition parse_eventim_event (element : Element) (artist source : string)
  : M (option Event) :=
  let title :=
    match title_elem element with
    | Some text => text
    | None => artist ++ " - Event"
    end in
  let date_str :=
    match date_elem element with Some text => text | None => "" end in
  let location := location_text element in
  let ticket_link := resolve_link source (link_elem element) in
  city_coords <- get_city_coordinates location ;;
  match city_coords with
  | Some c =>
      if negb (is_within_range c) then ret None
      else fun w =>
        (Some (mkEvent (PStr title) artist (PStr date_str) location source
                       (PStr ticket_link) (Some c) (now_iso E w)),
         tick w)
  | None => fun w =>
      (Some (mkEvent (PStr title) artist (PStr date_str) location source
                     (PStr ticket_link) None (now_iso E w)),
       tick w)
  end.

(** The loop over the candidates of one page. *)
Fixpoint parse_candidates (elements : list Element) (artist source : string)
  : M (list Event) :=
  match elements with
  | [] => ret []
  | element :: rest =>
      event_data <- parse_eventim_event element artist source ;;
      tail <- parse_candidates rest artist source ;;
      ret (match event_data with Some e => e :: tail | None => tail end)
  end.

Definition search_url (domain artist : string) : string :=
  "https://www." ++ domain ++ "/search/?term=" ++ replace_char " " "+" artist.

(** One turn of the loop over the artists in [scrape_eventim_pl] and
    [scrape_eventim_de]: an exception of the request is caught (and the
    pause skipped); a page with status 200 gives at most five candidates. *)
Definition scrape_artist (domain artist : string) : M (list Event) :=
  fun w =>
    let url := search_url domain artist in
    let w1 := log_http (HtmlGet url) w in
    match http_html E w url with
    | HtmlError => ([], w1)
    | HtmlPage status candidates =>
        if (status =? 200)%Z then
          let (found, w2) :=
            parse_candidates (firstn 5 candidates) artist domain w1 in
          (found, sleep w2)
        else ([], sleep w1)
    end.

Fixpoint scrape_artists (domain : string) (artists : list string)
  : M (list Event) :=
  match artists with
  | [] => ret []
  | artist :: rest =>
      found <- scrape_artist domain artist ;;
      more <- scrape_artists domain rest ;;
      ret (found ++ more)%list
  end.

Definition scrape_eventim (domain : string) : M (res (list Event)) :=
  _ <- get_session ;;
  events <- scrape_artists domain TARGET_ARTISTS ;;
  ret (Ok events).

Definition scrape_eventim_pl : M (res (list Event)) := scrape_eventim "eventim.pl".

Definition scrape_eventim_de : M (res (list Event)) := scrape_eventim "eventim.de".

(** The loop of [save_events_to_db] over the events (lines 218 to 228): one
    insert per event, in order; the first insert that raises ends the loop,
    and the rows inserted before it stay. *)
Fixpoint insert_all (events : list Event) : M (res unit) :=
  fun w =>
    match events with
    | [] => (Ok tt, w)
    | event :: rest =>
        match db_execute E w (Insert event) with
        | Some msg => (Raise msg, w)
        | None => insert_all rest (write_rows [event] w)
        end
    end.

(** [save_events_to_db(events)]: nothing is done for no events.  Otherwise
    a connection is opened (an exception of that leaves the function at
    once); then, inside the [try], the clock is read for the purge of old
    rows, the purge is sent and the events are inserted; the [finally]
    closes the connection on every path, and an exception of the closing
    takes the place of an earlier one.  What the purge removes is the
    database's business: [db_rows] lists the rows inserted. *)
Definition save_events_to_db (events : list Event) : M (res unit) :=
  fun w =>
    match events with
    | [] => (Ok tt, w)
    | _ =>
        match db_connect E w with
        | Some msg => (Raise msg, w)
        | None =>
            let now := now_iso E w in
            let w1 := tick w in
            let (r, w2) :=
              match db_execute E w1 (Purge now) with
              | Some msg => (Raise msg, w1)
              | None => insert_all events w1
              end in
            match db_close E w2 with
            | Some msg => (Raise msg, w2)
            | None => (r, w2)
            end
        end
    end.

Definition count (events : list Event) : pyval := PInt (Z.of_nat (List.length events)).

(** The [try] block of [manual_scrape].  The three Ticketmaster lines stand
    in the source at the indentation of the function body; they are read
    here where they stand in the text, between the two Eventim calls and the
    save. *)
Definition scrape_all : M (res (list (string * pyval))) :=
  fun w =>
    match scrape_eventim_pl w with
    | (Raise msg, w1) => (Raise msg, w1)
    | (Ok eventim_pl_events, w1) =>
    match scrape_eventim_de w1 with
    | (Raise msg, w2) => (Raise msg, w2)
    | (Ok eventim_de_events, w2) =>
    match Ticketmaster.scrape_events E TARGET_ARTISTS w2 with
    | (Raise msg, w3) => (Raise msg, w3)
    | (Ok ticketmaster_events, w3) =>
    let all_events :=
      (eventim_pl_events ++ eventim_de_events ++ ticketmaster_events)%list in
    match save_events_to_db all_events w3 with
    | (Raise msg, w4) => (Raise msg, w4)
    | (Ok _, w4) =>
        (Ok [("message", PStr "Scraping completed successfully");
             ("total_events_found", count all_events);
             ("eventim_pl", count eventim_pl_events);
             ("eventim_de", count eventim_de_events)],
         w4)
    end end end end.

(** [manual_scrape()]: any exception becomes a response with status 500,
    and the session is closed on every path. *)
Definition manual_scrape : M Outcome :=
  fun w =>
    let (r, w1) := scrape_all w in
    let (_, w2) := close_session w1 in
    match r with
    | Ok body => (Returned body, w2)
    | Raise msg => (HTTP500 ("Scraping failed: " ++ msg), w2)
    end.

End EventScraper.
End Main.

(** ** main.py: the [/events] endpoint and the columns of a row *)

Module Endpoints.

(** [str(n)] for a natural number. *)
Definition str_of_nat (n : nat) : string :=
  NilEmpty.string_of_uint (Nat.to_uint n).

(** [if s:] for an optional string: given and not empty. *)
Definition given (s : option string) : bool :=
  match s with
  | Some text => negb (String.eqb text "")
  | None => false
  end.

(** One filter of [get_events] (lines 254 to 260), for [column] being
    [artist] or [location]:
<<
    if artist:
        query += " AND LOWER(artist) LIKE LOWER($" + str(len(params) + 1) + ")"
        params.append(f"%{artist}%")
>> *)
Definition add_filter (column : string) (value : option string)
    (state : string * list pyval) : string * list pyval :=
  let (query, params) := state in
  match value with
  | Some text =>
      if negb (String.eqb text "") then
        (query ++ " AND LOWER(" ++ column ++ ") LIKE LOWER($"
               ++ str_of_nat (List.length params + 1) ++ ")",
         (params ++ [PStr ("%" ++ text ++ "%")])%list)
      else state
  | None => state
  end.

(** The statement and the parameters [get_events] sends to the database
    (lines 251 to 263). *)
Definition get_events_query (artist location : option string) (limit : Z)
  : string * list pyval :=
  let state := ("SELECT * FROM events WHERE 1=1", []) in
  let state := add_filter "artist" artist state in
  let (query, params) := add_filter "location" location state in
  (query ++ " ORDER BY scraped_at DESC LIMIT $"
         ++ str_of_nat (List.length params + 1),
   (params ++ [PInt limit])%list).

(** The two coordinate columns [save_events_to_db] writes for an event
    (lines 219 and 220):
<<
    coords_lat = event['coordinates'][0] if event['coordinates'] else None
    coords_lon = event['coordinates'][1] if event['coordinates'] else None
>> *)
Definition coordinate_columns (e : Event) : pyval * pyval :=
  match coordinates e with
  | Some (latitude, longitude) => (PFloat latitude, PFloat longitude)
  | None => (PNone, PNone)
  end.

(** The coordinates [get_events] returns for a row (line 277):
<<
    [row['coordinates_lat'], row['coordinates_lon']] if row['coordinates_lat'] else None
>> *)
Definition row_coordinates (coordinates_lat coordinates_lon : pyval) : pyval :=
  if truthy coordinates_lat then PList [coordinates_lat; coordinates_lon]
  else PNone.

End Endpoints.

(** ** Test doubles

    Concrete collaborators, used to run the definitions on examples. *)

Module Doubles.

(** A flat approximation of the distance in kilometres.  Like geopy it
    refuses a latitude outside [-90, 90] and coordinates that are not
    numbers. *)
Definition flat_km (a b : coords) : option float :=
  let (lat1, lon1) := a in
  let (lat2, lon2) := b in
  if PrimFloat.ltb 90 (PrimFloat.abs lat1) || PrimFloat.ltb 90 (PrimFloat.abs lat2)
  then None
  else
    let dy := (111.2 * (lat2 - lat1))%float in
    let dx := (69.8 * (lon2 - lon1))%float in
    let d := PrimFloat.sqrt (dx * dx + dy * dy)%float in
    if PrimFloat.is_nan d then None else Some d.

(** A geocoder that knows three places; the third has a latitude no place
    on Earth has. *)
Definition gazetteer (name : string) : GeoReply :=
  if String.eqb name "Berlin" then GeoFound 52.52 13.405
  else if String.eqb name "Lisboa" then GeoFound 38.7223 (-9.1393)
  else if String.eqb name "Ultima Thule" then GeoFound 95 10
  else GeoNotFound.

(** A geocoder that also finds a place called Unknown, far away. *)
Definition gazetteer_with_unknown (name : string) : GeoReply :=
  if String.eqb name "Unknown" then GeoFound 37.0 (-88.5)
  else gazetteer name.

(** A geocoder whose first lookup fails and that works afterwards. *)
Definition flaky_geocoder (w : World) (name : string) : GeoReply :=
  match geo_calls w with
  | [] => GeoError
  | _ => gazetteer name
  end.

Definition berlin_card : Element :=
  mkElement (Some "Amelie Lens live") (Some "12.04.2025") (Some "Berlin")
            (Some "/event/amelie-lens-berlin").

Definition bare_card : Element := mkElement None None None None.

(** A card whose place the gazetteer puts at an impossible latitude. *)
Definition thule_card : Element :=
  mkElement (Some "Fisher at the pole") None (Some "Ultima Thule") None.

(** A site with one event, for one artist. *)
Definition one_page (url : string) : HtmlReply :=
  if String.eqb url "https://www.eventim.de/search/?term=Amelie+Lens"
  then HtmlPage 200 [berlin_card]
  else HtmlPage 200 [].

(** The Polish site is down, the German one answers. *)
Definition pl_down (url : string) : HtmlReply :=
  if String.prefix "https://www.eventim.pl/" url then HtmlError
  else one_page url.

(** The Polish site is down, the German one finds nothing. *)
Definition pl_down_de_empty (url : string) : HtmlReply :=
  if String.prefix "https://www.eventim.pl/" url then HtmlError
  else HtmlPage 200 [].

Definition venue_berlin : pyval :=
  PDict [("city", PDict [("name", PStr "Berlin")]);
         ("country", PDict [("countryCode", PStr "DE")]);
         ("location", PDict [("latitude", PStr "52.52");
                             ("longitude", PStr "13.405")])].

(** A venue with a city and a country and nothing about where it is. *)
Definition venue_no_location : pyval :=
  PDict [("city", PDict [("name", PStr "Berlin")]);
         ("country", PDict [("countryCode", PStr "DE")])].

(** A venue on the equator, and one whose latitude is not given. *)
Definition venue_equator : pyval :=
  PDict [("city", PDict [("name", PStr "Quito")]);
         ("country", PDict [("countryCode", PStr "EC")]);
         ("location", PDict [("latitude", PStr "0.0");
                             ("longitude", PStr "-78.5")])].

Definition venue_no_latitude : pyval :=
  PDict [("city", PDict [("name", PStr "Praha")]);
         ("country", PDict [("countryCode", PStr "CZ")]);
         ("location", PDict [("longitude", PStr "13.405")])].

Definition event_at (name : string) (venue : pyval) : pyval :=
  PDict [("name", PStr name);
         ("url", PStr "https://www.ticketmaster.de/event/1");
         ("dates", PDict [("start", PDict [("localDate", PStr "2025-04-12")])]);
         ("_embedded", PDict [("venues", PList [venue])])].

(** An event of which the response says nothing at all. *)
Definition event_empty : pyval := PDict [].

Definition response_of (events : list pyval) : pyval :=
  PDict [("_embedded", PDict [("events", PList events)])].

(** The few decimal strings the examples use. *)
Definition read_float (s : string) : option float :=
  if String.eqb s "52.52" then Some 52.52%float
  else if String.eqb s "13.405" then Some 13.405%float
  else if String.eqb s "0.0" then Some 0%float
  else if String.eqb s "-78.5" then Some (-78.5)%float
  else None.

Definition env_of (geo : World -> string -> GeoReply)
    (html : string -> HtmlReply) (api : option pyval) (key : option string)
  : Env :=
  mkEnv geo flat_km (fun _ => html)
        (fun _ _ _ => match api with
                      | Some data => ApiResponse 200 (Some data)
                      | None => ApiError
                      end)
        (fun _ => "2025-01-01T12:00:00")
        read_float (fun _ => None) (fun _ => "?") key
        (fun _ => None) (fun _ _ => None) (fun _ => None).

(** Everything works: both sites answer, the API has one event in Berlin. *)
Definition env_fine : Env :=
  env_of (fun _ => gazetteer) one_page
         (Some (response_of [event_at "Amelie Lens" venue_berlin])) (Some "k3y").

(** No API key is configured. *)
Definition env_no_key : Env :=
  env_of (fun _ => gazetteer) one_page
         (Some (response_of [event_at "Amelie Lens" venue_berlin])) None.

(** The Polish site raises on every request, the German site finds nothing
    and no API key is configured. *)
Definition env_pl_down : Env :=
  env_of (fun _ => gazetteer) pl_down_de_empty None None.

(** Every request raises: both sites and the API. *)
Definition env_all_down : Env :=
  env_of (fun _ => gazetteer) (fun _ => HtmlError) None (Some "k3y").

(** The geocoder finds a far-away place called Unknown. *)
Definition env_unknown_found : Env :=
  env_of (fun _ => gazetteer_with_unknown) one_page None None.

(** The geocoder fails once. *)
Definition env_flaky : Env :=
  env_of flaky_geocoder one_page None None.

(** A venue in Lisbon and one in Berlin, with numbers for coordinates. *)
Definition venue_lisboa : pyval :=
  PDict [("city", PDict [("name", PStr "Lisboa")]);
         ("country", PDict [("countryCode", PStr "PT")]);
         ("location", PDict [("latitude", PFloat 38.7223);
                             ("longitude", PFloat (-9.1393))])].

Definition venue_berlin_numbers : pyval :=
  PDict [("city", PDict [("name", PStr "Berlin")]);
         ("country", PDict [("countryCode", PStr "DE")]);
         ("location", PDict [("latitude", PFloat 52.52);
                             ("longitude", PFloat 13.405)])].

(** A card with a link that is a full address. *)
Definition linked_card : Element :=
  mkElement (Some "Carl Cox") (Some "01.05.2025") None
            (Some "https://tickets.example/carl-cox").

(** Everything works, except that the database cannot be reached. *)
Definition env_db_down : Env :=
  mkEnv (fun _ => gazetteer) flat_km (fun _ => one_page)
        (fun _ _ _ => ApiError)
        (fun _ => "2025-01-01T12:00:00")
        read_float (fun _ => None) (fun _ => "?") None
        (fun _ => Some "connection refused") (fun _ _ => None)
        (fun _ => None).

(** Nothing answers: both sites and the API raise, and the database cannot
    be reached. *)
Definition env_all_down_db_down : Env :=
  mkEnv (fun _ => gazetteer) flat_km (fun _ => fun _ => HtmlError)
        (fun _ _ _ => ApiError)
        (fun _ => "2025-01-01T12:00:00")
        read_float (fun _ => None) (fun _ => "?") (Some "k3y")
        (fun _ => Some "connection refused") (fun _ _ => None)
        (fun _ => None).

(** The database takes the first row and refuses every row after it. *)
Definition env_db_full : Env :=
  mkEnv (fun _ => gazetteer) flat_km (fun _ => one_page)
        (fun _ _ _ => ApiResponse 200
           (Some (response_of [event_at "Amelie Lens" venue_berlin])))
        (fun _ => "2025-01-01T12:00:00")
        read_float (fun _ => None) (fun _ => "?") (Some "k3y")
        (fun _ => None)
        (fun w statement =>
           match statement, db_rows w with
           | Insert _, _ :: _ => Some "disk full"
           | _, _ => None
           end)
        (fun _ => None).

(** A venue whose latitude is not given and whose longitude is no number. *)
Definition venue_bad_longitude : pyval :=
  PDict [("city", PDict [("name", PStr "Praha")]);
         ("country", PDict [("countryCode", PStr "CZ")]);
         ("location", PDict [("longitude", PStr "abc")])].

End Doubles.

(** ** Vocabulary of the properties *)

(** The distance filter an event has passed: when it has coordinates, the
    distance from [reference] to them is known and at most [radius]. *)
Definition within_radius (E : Env) (reference : coords) (radius : float)
    (e : Event) : Prop :=
  forall c, coordinates e = Some c ->
  exists d, geodesic E reference c = Some d /\ PrimFloat.leb d radius = true.

(** The filter of the HTML adapters and the filter of the API adapter. *)
Definition html_filter (E : Env) : Event -> Prop :=
  within_radius E Main.WROCLAW_COORDS Main.MAX_DISTANCE_KM.

Definition api_filter (E : Env) : Event -> Prop :=
  within_radius E Ticketmaster.WROCLAW_COORDS Ticketmaster.MAX_DISTANCE_KM.

(** The collaborator's distance is a number. *)
Definition distance_is_number (E : Env) : Prop :=
  forall a b d, geodesic E a b = Some d -> PrimFloat.is_nan d = false.

(** The coordinates a reply of the geocoder stands for. *)
Definition found_coordinates (r : GeoReply) : option coords :=
  match r with
  | GeoFound latitude longitude => Some (latitude, longitude)
  | GeoNotFound | GeoError => None
  end.

(** [float(loc.get(key, 0))] evaluates to [x]. *)
Definition coordinate_reads (E : Env) (loc : pyval) (key : string) (x : float)
  : Prop :=
  exists raw, py_get loc key (PInt 0) = Some raw /\ py_float E raw = Some x.

(** [c] occurs in [s]. *)
Fixpoint has_char (c : ascii) (s : string) : bool :=
  match s with
  | EmptyString => false
  | String c' s' => Ascii.eqb c' c || has_char c s'
  end.

(** The artists of a result grouped by artist: every artist of [groups], in
    order, repeated as often as the number given with it. *)
Definition grouped (groups : list (string * nat)) : list string :=
  flat_map (fun p => repeat (fst p) (snd p)) groups.

(** The Python value of optional coordinates, as [get_events] returns
    them. *)
Definition coordinates_value (c : option coords) : pyval :=
  match c with
  | Some (latitude, longitude) => PList [PFloat latitude; PFloat longitude]
  | None => PNone
  end.

(** The requests the API adapter sends for a list of artists: none without
    a key that is not empty, else one per artist. *)
Definition api_requests (E : Env) (artists : list string) : list Request :=
  match tm_api_key E with
  | Some key =>
      if String.eqb key "" then []
      else map (fun a => ApiGet Ticketmaster.base_url
                           (Ticketmaster.search_params (PStr key) a)) artists
  | None => []
  end.

(** ** Properties *)

(** *** Comparing floats *)

Lemma SFcompare_swap (x y : spec_float) (c : comparison) :
  SFcompare x y = Some c -> SFcompare y x = Some (CompOpp c).
Proof.
  destruct x as [sx|sx| |sx mx ex], y as [sy|sy| |sy my ey]; simpl;
    try discriminate;
    try (intros H; injection H as <-; reflexivity);
    try (destruct sx; intros H; injection H as <-; reflexivity);
    try (destruct sy; intros H; injection H as <-; reflexivity);
    try (destruct sx, sy; intros H; injection H as <-; reflexivity).
  intros H; injection H as <-. f_equal.
  destruct sx, sy; try reflexivity.
  - rewrite (Z.compare_antisym ex ey).
    destruct (ex ?= ey)%Z; simpl; try reflexivity.
    rewrite CompOpp_involutive.
    exact (Pos.compare_cont_antisym my mx Eq).
  - rewrite (Z.compare_antisym ex ey).
    destruct (ex ?= ey)%Z; simpl; try reflexivity.
    symmetry. exact (Pos.compare_cont_antisym mx my Eq).
Qed.

(** For two numbers, "not greater" is "at most"; NaN is the one float for
    which the two differ. *)
Lemma not_gt_is_le (m d : float) :
  PrimFloat.is_nan d = false -> PrimFloat.is_nan m = false ->
  PrimFloat.ltb m d = false -> PrimFloat.leb d m = true.
Proof.
  unfold PrimFloat.is_nan.
  rewrite !FloatAxioms.eqb_spec, FloatAxioms.ltb_spec, FloatAxioms.leb_spec.
  unfold SFeqb, SFltb, SFleb.
  intros Hd Hm Hlt.
  destruct (SFcompare (Prim2SF m) (Prim2SF d)) as [c|] eqn:Hc.
  - rewrite (SFcompare_swap _ _ _ Hc).
    destruct c; simpl; try reflexivity; discriminate.
  - destruct (Prim2SF m), (Prim2SF d); simpl in *; discriminate.
Qed.

(** Split on what a [match] or an [if] in hypothesis [H] looks at. *)
Ltac split_match H :=
  match type of H with
  | context [match ?x with _ => _ end] =>
      lazymatch x with
      | context [match _ with _ => _ end] => fail
      | _ => destruct x eqn:?; cbv beta iota in H; try discriminate H
      end
  end.

Lemma step_bind_value {A B : Type} (s : Ticketmaster.Step A)
    (k : A -> Ticketmaster.Step B) (b : B) :
  Ticketmaster.step_bind s k = Ticketmaster.Value b ->
  exists a, s = Ticketmaster.Value a /\ k a = Ticketmaster.Value b.
Proof.
  destruct s as [a| |]; simpl; try discriminate.
  intros H. exists a. split; [reflexivity | exact H].
Qed.

Lemma try_value {A : Type} (o : option A) (a : A) :
  Ticketmaster.try_ o = Ticketmaster.Value a -> o = Some a.
Proof.
  destruct o; simpl; [|discriminate].
  intros H; injection H as <-. reflexivity.
Qed.

Section Filter.
Variable E : Env.


Lemma is_within_range_true (c : coords) :
  Main.is_within_range E c = true ->
  exists d, geodesic E Main.WROCLAW_COORDS c = Some d
            /\ PrimFloat.leb d Main.MAX_DISTANCE_KM = true.
Proof.
  unfold Main.is_within_range.
  destruct (geodesic E Main.WROCLAW_COORDS c) as [d|]; [|discriminate].
  intros H. exists d. split; [reflexivity | exact H].
Qed.

Lemma parse_eventim_event_filtered el artist src w e w' :
  Main.parse_eventim_event E el artist src w = (Some e, w') -> html_filter E e.
Proof.
  unfold Main.parse_eventim_event, bind, Main.get_city_coordinates, ret.
  destruct (geocode E w _) as [lat lon| |].
  - destruct (Main.is_within_range E (lat, lon)) eqn:Hr; simpl; [|discriminate].
    intros H; injection H as <- _. intros c Hc; simpl in Hc.
    injection Hc as <-. apply is_within_range_true, Hr.
  - intros H; injection H as <- _. intros c Hc; discriminate Hc.
  - intros H; injection H as <- _. intros c Hc; discriminate Hc.
Qed.

Lemma parse_candidates_filtered els artist src :
  forall w found w',
    Main.parse_candidates E els artist src w = (found, w') ->
    Forall (html_filter E) found.
Proof.
  induction els as [|el els IH]; intros w found w'; simpl.
  - unfold ret. intros H; injection H as <- _. constructor.
  - unfold bind, ret.
    destruct (Main.parse_eventim_event E el artist src w) as [r w1] eqn:H1.
    destruct (Main.parse_candidates E els artist src w1) as [tail w2] eqn:H2.
    intros H; injection H as <- _.
    specialize (IH _ _ _ H2).
    destruct r as [e|]; [|exact IH].
    constructor; [|exact IH].
    eapply parse_eventim_event_filtered, H1.
Qed.

Lemma scrape_artist_filtered domain artist w found w' :
  Main.scrape_artist E domain artist w = (found, w') -> Forall (html_filter E) found.
Proof.
  unfold Main.scrape_artist.
  destruct (http_html E w _) as [|status candidates].
  - intros H; injection H as <- _. constructor.
  - destruct (status =? 200)%Z.
    + destruct (Main.parse_candidates E _ artist domain _) as [f w2] eqn:Hp.
      intros H; injection H as <- _.
      eapply parse_candidates_filtered, Hp.
    + intros H; injection H as <- _. constructor.
Qed.

Lemma scrape_artists_filtered domain artists :
  forall w found w',
    Main.scrape_artists E domain artists w = (found, w') ->
    Forall (html_filter E) found.
Proof.
  induction artists as [|a artists IH]; intros w found w'; simpl.
  - unfold ret. intros H; injection H as <- _. constructor.
  - unfold bind, ret.
    destruct (Main.scrape_artist E domain a w) as [f w1] eqn:H1.
    destruct (Main.scrape_artists E domain artists w1) as [m w2] eqn:H2.
    intros H; injection H as <- _.
    apply Forall_app. split.
    + eapply scrape_artist_filtered, H1.
    + eapply IH, H2.
Qed.

Lemma scrape_eventim_filtered domain w found w' :
  Main.scrape_eventim E domain w = (Ok found, w') -> Forall (html_filter E) found.
Proof.
  unfold Main.scrape_eventim, bind, ret, Main.get_session.
  destruct (Main.scrape_artists E domain _ _) as [f w1] eqn:H1.
  intros H; injection H as <- _.
  eapply scrape_artists_filtered, H1.
Qed.

Hypothesis distance_ok : distance_is_number E.

Lemma venue_coordinates_filtered venue c :
  Ticketmaster.venue_coordinates E venue = Ticketmaster.Value (Some c) ->
  exists d, geodesic E Ticketmaster.WROCLAW_COORDS c = Some d
            /\ PrimFloat.leb d Ticketmaster.MAX_DISTANCE_KM = true.
Proof.
  unfold Ticketmaster.venue_coordinates, Ticketmaster.step_bind, Ticketmaster.try_.
  intros H. repeat split_match H.
  injection H as <-. eexists. split; [eassumption|].
  apply not_gt_is_le; [eapply distance_ok; eassumption | reflexivity | assumption].
Qed.

Lemma event_place_filtered event place c :
  Ticketmaster.event_place E event = Ticketmaster.Value (place, Some c) ->
  exists d, geodesic E Ticketmaster.WROCLAW_COORDS c = Some d
            /\ PrimFloat.leb d Ticketmaster.MAX_DISTANCE_KM = true.
Proof.
  unfold Ticketmaster.event_place. intros H.
  apply step_bind_value in H. destruct H as (embedded & _ & H).
  apply step_bind_value in H. destruct H as (venues & _ & H).
  destruct (truthy venues); [|discriminate H].
  apply step_bind_value in H. destruct H as (venue & _ & H).
  apply step_bind_value in H. destruct H as (text & _ & H).
  apply step_bind_value in H. destruct H as (found & Hv & H).
  injection H as _ ->.
  eapply venue_coordinates_filtered, Hv.
Qed.

Lemma parse_event_filtered event artist w e w' :
  Ticketmaster.parse_event E event artist w = (Ticketmaster.Value e, w') ->
  api_filter E e.
Proof.
  unfold Ticketmaster.parse_event.
  destruct (Ticketmaster.event_head event) as [[[name url] d]| |]; simpl;
    try discriminate.
  destruct (Ticketmaster.event_place E event) as [[place found]| |] eqn:Hp;
    simpl; try discriminate.
  intros H; injection H as <- _.
  intros c Hc; simpl in Hc. subst found.
  eapply event_place_filtered, Hp.
Qed.

Lemma parse_event_list_filtered events artist :
  forall w found w',
    Ticketmaster.parse_event_list E events artist w = (found, w') ->
    Forall (api_filter E) found.
Proof.
  induction events as [|event events IH]; intros w found w'; simpl.
  - unfold ret. intros H; injection H as <- _. constructor.
  - unfold bind, ret.
    destruct (Ticketmaster.parse_event E event artist w) as [s w1] eqn:H1.
    destruct (Ticketmaster.parse_event_list E events artist w1)
      as [tail w2] eqn:H2.
    intros H; injection H as <- _.
    specialize (IH _ _ _ H2).
    destruct s as [e| |]; try exact IH.
    constructor; [|exact IH].
    eapply parse_event_filtered, H1.
Qed.

Lemma parse_events_filtered data artist w found w' :
  Ticketmaster.parse_events E data artist w = (Some found, w') ->
  Forall (api_filter E) found.
Proof.
  unfold Ticketmaster.parse_events. intros H.
  destruct (py_contains data "_embedded") as [[|]|]; try discriminate H.
  - destruct (py_getitem data "_embedded") as [embedded|]; try discriminate H.
    destruct (py_contains embedded "events") as [[|]|]; try discriminate H.
    + destruct (py_getitem embedded "events") as [events|]; try discriminate H.
      destruct (py_iter events) as [items|]; try discriminate H.
      destruct (Ticketmaster.parse_event_list E items artist w)
        as [f w1] eqn:Hl.
      injection H as <- _.
      eapply parse_event_list_filtered, Hl.
    + injection H as <- _. constructor.
  - injection H as <- _. constructor.
Qed.

Lemma search_artist_events_filtered artist w found w' :
  Ticketmaster.search_artist_events E artist w = (found, w') ->
  Forall (api_filter E) found.
Proof.
  unfold Ticketmaster.search_artist_events. intros H.
  destruct (http_api E w _ _) as [|status [data|]].
  - injection H as <- _. constructor.
  - destruct (status =? 200)%Z.
    + destruct (Ticketmaster.debug_count data).
      * destruct (Ticketmaster.parse_events E data artist _)
          as [[f|] w2] eqn:Hp; injection H as <- _.
        -- eapply parse_events_filtered, Hp.
        -- constructor.
      * injection H as <- _. constructor.
    + injection H as <- _. constructor.
  - destruct (status =? 200)%Z; injection H as <- _; constructor.
Qed.

Lemma search_all_filtered artists :
  forall w found w',
    Ticketmaster.search_all E artists w = (found, w') -> Forall (api_filter E) found.
Proof.
  induction artists as [|a artists IH]; intros w found w'; simpl.
  - unfold ret. intros H; injection H as <- _. constructor.
  - unfold bind, ret.
    destruct (Ticketmaster.search_artist_events E a w) as [f w1] eqn:H1.
    destruct (Ticketmaster.search_all E artists w1) as [m w2] eqn:H2.
    intros H; injection H as <- _.
    apply Forall_app. split.
    + eapply search_artist_events_filtered, H1.
    + eapply IH, H2.
Qed.

Lemma scrape_events_filtered artists w found w' :
  Ticketmaster.scrape_events E artists w = (Ok found, w') ->
  Forall (api_filter E) found.
Proof.
  unfold Ticketmaster.scrape_events, bind, ret. intros H.
  destruct (tm_api_key E) as [key|].
  - destruct (String.eqb key "").
    + injection H as <- _. constructor.
    + destruct (Ticketmaster.search_all E artists w) as [f w1] eqn:Hs.
      injection H as <- _. eapply search_all_filtered, Hs.
  - injection H as <- _. constructor.
Qed.

End Filter.

(** *** The distance filter *)

Lemma flat_km_is_number (a b : coords) (d : float) :
  Doubles.flat_km a b = Some d -> PrimFloat.is_nan d = false.
Proof.
  destruct a as [lat1 lon1], b as [lat2 lon2]. unfold Doubles.flat_km.
  destruct (_ || _); [discriminate|].
  destruct (PrimFloat.is_nan _) eqn:Hn; [discriminate|].
  intros H; injection H as <-. exact Hn.
Qed.

(** C1.  Every event the adapters emit has passed the distance filter of its
    source: when its coordinates are present, the distance from the
    reference point (51.1079, 17.0385) to them is at most 700 km for the
    HTML adapters ([parse_eventim_event] and the two site scrapers) and at
    most 1000 km for the API adapter ([parse_events] and [scrape_events]).
    The API adapter skips an event when [distance > 1000], which is the same
    as keeping it when [distance <= 1000] as long as the distance is a
    number; the distance collaborator is taken to return one. *)
Theorem emitted_events_within_radius (E : Env) :
  (forall element artist src w e w',
      Main.parse_eventim_event E element artist src w = (Some e, w') ->
      within_radius E (51.1079, 17.0385)%float 700%float e)
  /\ (forall w found w',
        Main.scrape_eventim_pl E w = (Ok found, w') ->
        Forall (within_radius E (51.1079, 17.0385)%float 700%float) found)
  /\ (forall w found w',
        Main.scrape_eventim_de E w = (Ok found, w') ->
        Forall (within_radius E (51.1079, 17.0385)%float 700%float) found)
  /\ (distance_is_number E ->
      (forall data artist w found w',
          Ticketmaster.parse_events E data artist w = (Some found, w') ->
          Forall (within_radius E (51.1079, 17.0385)%float 1000%float) found)
      /\ (forall artists w found w',
            Ticketmaster.scrape_events E artists w = (Ok found, w') ->
            Forall (within_radius E (51.1079, 17.0385)%float 1000%float)
                   found)).
Proof.
  split; [|split; [|split]].
  - intros element artist src w e w' H.
    exact (parse_eventim_event_filtered E _ _ _ _ _ _ H).
  - intros w found w' H. exact (scrape_eventim_filtered E _ _ _ _ H).
  - intros w found w' H. exact (scrape_eventim_filtered E _ _ _ _ H).
  - intros Hd. split.
    + intros data artist w found w' H.
      exact (parse_events_filtered E Hd _ _ _ _ _ H).
    + intros artists w found w' H.
      exact (scrape_events_filtered E Hd _ _ _ _ H).
Qed.

Lemma emitted_events_within_radius_witness :
  distance_is_number Doubles.env_fine
  /\ exists found w',
       Ticketmaster.scrape_events Doubles.env_fine ["Amelie Lens"] world0
       = (Ok found, w')
       /\ List.length found = 1
       /\ Forall (within_radius Doubles.env_fine (51.1079, 17.0385)%float
                                1000%float) found.
Proof.
  assert (Hd : distance_is_number Doubles.env_fine).
  { intros a b d. exact (flat_km_is_number a b d). }
  split; [exact Hd|].
  destruct (Ticketmaster.scrape_events Doubles.env_fine ["Amelie Lens"] world0)
    as [r w'] eqn:Hrun.
  vm_compute in Hrun.
  injection Hrun as <- <-.
  eexists. eexists. split; [reflexivity|]. split; [reflexivity|].
  destruct (emitted_events_within_radius Doubles.env_fine)
    as (_ & _ & _ & Hapi).
  destruct (Hapi Hd) as [_ Hrun].
  apply (Hrun ["Amelie Lens"] world0 _ (tick (log_http (ApiGet Ticketmaster.base_url (Ticketmaster.search_params (PStr "k3y") "Amelie Lens")) world0))).
  vm_compute. reflexivity.
Defined.

(** *** The geocoder *)

Lemma get_city_coordinates_eq (E : Env) (name : string) (w : World) :
  Main.get_city_coordinates E name w
  = (found_coordinates (geocode E w name), log_geocode name w).
Proof.
  unfold Main.get_city_coordinates. destruct (geocode E w name); reflexivity.
Qed.

(** C8, as the code has it.  [get_city_coordinates] keeps no cache: every
    call sends one lookup to the geocoder and returns what that lookup
    gives, so a second call with the same string asks again and returns the
    geocoder's second answer. *)
Theorem get_city_coordinates_asks_every_time (E : Env) (p : string) (w : World) :
  let (r1, w1) := Main.get_city_coordinates E p w in
  let (r2, w2) := Main.get_city_coordinates E p w1 in
  geo_calls w1 = (geo_calls w ++ [p])%list
  /\ geo_calls w2 = (geo_calls w ++ [p; p])%list
  /\ r1 = found_coordinates (geocode E w p)
  /\ r2 = found_coordinates (geocode E w1 p).
Proof.
  rewrite !get_city_coordinates_eq. simpl.
  repeat split. rewrite <- app_assoc. reflexivity.
Qed.

(** C8 fails as stated: with a geocoder whose first lookup fails, the second
    call for "Berlin" reaches the geocoder again and returns something else
    than the first. *)
Lemma get_city_coordinates_not_cached :
  let (r1, w1) := Main.get_city_coordinates Doubles.env_flaky "Berlin" world0 in
  let (r2, w2) := Main.get_city_coordinates Doubles.env_flaky "Berlin" w1 in
  ~ (geo_calls w2 = geo_calls w1 /\ r2 = r1).
Proof.
  vm_compute. intros [H _]. discriminate H.
Qed.

(** *** One candidate of a search page *)

Section Candidate.
Variable E : Env.
Variables (artist src : string) (w : World).

Lemma parse_eventim_event_found (element : Element) (lat lon : float) :
  geocode E w (Main.location_text element) = GeoFound lat lon ->
  Main.is_within_range E (lat, lon) = false ->
  Main.parse_eventim_event E element artist src w
  = (None, log_geocode (Main.location_text element) w).
Proof.
  intros Hg Hr.
  unfold Main.parse_eventim_event, bind. rewrite get_city_coordinates_eq, Hg.
  simpl. rewrite Hr. reflexivity.
Qed.

Lemma is_within_range_false (c : coords) :
  geodesic E Main.WROCLAW_COORDS c = None
  \/ (exists d, geodesic E Main.WROCLAW_COORDS c = Some d
                /\ PrimFloat.leb d Main.MAX_DISTANCE_KM = false) ->
  Main.is_within_range E c = false.
Proof.
  unfold Main.is_within_range. intros [H | (d & H & Hd)]; rewrite H.
  - reflexivity.
  - exact Hd.
Qed.

End Candidate.

(** C3, as the code has it.  When the location of a candidate geocodes to
    coordinates on which the distance computation raises, [is_within_range]
    answers [False] and the candidate is dropped: [parse_eventim_event]
    returns absent, after the one lookup. *)
Theorem distance_failure_drops_event (E : Env) (element : Element)
    (artist src : string) (w : World) (lat lon : float) :
  geocode E w (Main.location_text element) = GeoFound lat lon ->
  geodesic E Main.WROCLAW_COORDS (lat, lon) = None ->
  Main.is_within_range E (lat, lon) = false
  /\ Main.parse_eventim_event E element artist src w
     = (None, log_geocode (Main.location_text element) w).
Proof.
  intros Hg Hd.
  assert (Hr : Main.is_within_range E (lat, lon) = false).
  { apply is_within_range_false. left. exact Hd. }
  split; [exact Hr|].
  exact (parse_eventim_event_found E artist src w element lat lon Hg Hr).
Qed.

Lemma distance_failure_drops_event_witness :
  Main.parse_eventim_event Doubles.env_fine Doubles.thule_card "Fisher"
                           "eventim.pl" world0
  = (None, log_geocode "Ultima Thule" world0).
Proof.
  exact (proj2 (distance_failure_drops_event Doubles.env_fine
                  Doubles.thule_card "Fisher" "eventim.pl" world0
                  95%float 10%float eq_refl eq_refl)).
Defined.

(** C3 fails as stated: the place of this card geocodes to (95, 10), the
    distance to it cannot be computed, and the card is not kept. *)
Lemma distance_failure_is_not_kept :
  geocode Doubles.env_fine world0 (Main.location_text Doubles.thule_card)
  = GeoFound 95 10
  /\ geodesic Doubles.env_fine Main.WROCLAW_COORDS (95, 10)%float = None
  /\ ~ (exists e, fst (Main.parse_eventim_event Doubles.env_fine
                         Doubles.thule_card "Fisher" "eventim.pl" world0)
                  = Some e).
Proof.
  split; [reflexivity|]. split; [reflexivity|].
  intros [e H]. vm_compute in H. discriminate H.
Qed.

(** C10.  A candidate without a location element has the default string
    "Unknown" sent to the geocoder; when the geocoder finds a place of that
    name whose distance cannot be computed or is not at most 700 km, the
    candidate is dropped. *)
Theorem unknown_location_is_geocoded (E : Env) (element : Element)
    (artist src : string) (w : World) :
  location_elem element = None ->
  geo_calls (snd (Main.parse_eventim_event E element artist src w))
  = (geo_calls w ++ ["Unknown"])%list
  /\ (forall lat lon,
        geocode E w "Unknown" = GeoFound lat lon ->
        geodesic E (51.1079, 17.0385)%float (lat, lon) = None
        \/ (exists d, geodesic E (51.1079, 17.0385)%float (lat, lon) = Some d
                      /\ PrimFloat.leb d 700%float = false) ->
        fst (Main.parse_eventim_event E element artist src w) = None).
Proof.
  intros Hloc.
  assert (Ht : Main.location_text element = "Unknown").
  { unfold Main.location_text. rewrite Hloc. reflexivity. }
  split.
  - unfold Main.parse_eventim_event, bind.
    rewrite get_city_coordinates_eq, Ht.
    destruct (found_coordinates (geocode E w "Unknown")) as [c|].
    + destruct (negb (Main.is_within_range E c)); reflexivity.
    + reflexivity.
  - intros lat lon Hg Hfar.
    rewrite <- Ht in Hg.
    rewrite (parse_eventim_event_found E artist src w element lat lon Hg).
    + reflexivity.
    + apply is_within_range_false. exact Hfar.
Qed.

Lemma unknown_location_is_geocoded_witness :
  geo_calls (snd (Main.parse_eventim_event Doubles.env_unknown_found
                    Doubles.bare_card "Fisher" "eventim.pl" world0))
  = ["Unknown"]
  /\ fst (Main.parse_eventim_event Doubles.env_unknown_found
            Doubles.bare_card "Fisher" "eventim.pl" world0) = None.
Proof.
  destruct (unknown_location_is_geocoded Doubles.env_unknown_found
              Doubles.bare_card "Fisher" "eventim.pl" world0 eq_refl)
    as [Hcalls Hdrop].
  split; [exact Hcalls|].
  apply (Hdrop 37.0%float (-88.5)%float eq_refl).
  right. eexists. split; [vm_compute; reflexivity | vm_compute; reflexivity].
Defined.

(** C7, as the code has it.  A candidate without any sub-element is
    normalized to the Event with the defaults (title "{artist} - Event",
    empty date, location "Unknown", empty link), unless the geocoder finds a
    place called "Unknown" that is not within range; then it is dropped. *)
Theorem bare_element_defaults (E : Env) (artist src : string) (w : World) :
  ((forall lat lon, geocode E w "Unknown" = GeoFound lat lon ->
                    Main.is_within_range E (lat, lon) = true) ->
   Main.parse_eventim_event E (mkElement None None None None) artist src w
   = (Some (mkEvent (PStr (artist ++ " - Event")) artist (PStr "") "Unknown"
                    src (PStr "")
                    (found_coordinates (geocode E w "Unknown"))
                    (now_iso E (log_geocode "Unknown" w))),
      tick (log_geocode "Unknown" w)))
  /\ (forall lat lon, geocode E w "Unknown" = GeoFound lat lon ->
                      Main.is_within_range E (lat, lon) = false ->
      Main.parse_eventim_event E (mkElement None None None None) artist src w
      = (None, log_geocode "Unknown" w)).
Proof.
  split.
  - intros Hnear.
    unfold Main.parse_eventim_event, bind, Main.location_text.
    cbn [title_elem date_elem location_elem link_elem Main.resolve_link].
    rewrite get_city_coordinates_eq.
    destruct (geocode E w "Unknown") as [lat lon| |] eqn:Hg;
      cbn [found_coordinates].
    + rewrite (Hnear lat lon eq_refl). reflexivity.
    + reflexivity.
    + reflexivity.
  - intros lat lon Hg Hr.
    exact (parse_eventim_event_found E artist src w
             (mkElement None None None None) lat lon Hg Hr).
Qed.

Lemma bare_element_defaults_witness :
  Main.parse_eventim_event Doubles.env_fine Doubles.bare_card "Fisher"
                           "eventim.pl" world0
  = (Some (mkEvent (PStr "Fisher - Event") "Fisher" (PStr "") "Unknown"
                   "eventim.pl" (PStr "") None "2025-01-01T12:00:00"),
     tick (log_geocode "Unknown" world0))
  /\ Main.parse_eventim_event Doubles.env_unknown_found Doubles.bare_card
                              "Fisher" "eventim.pl" world0
     = (None, log_geocode "Unknown" world0).
Proof.
  split.
  - apply (proj1 (bare_element_defaults Doubles.env_fine "Fisher"
                    "eventim.pl" world0)).
    intros lat lon H. discriminate H.
  - apply (proj2 (bare_element_defaults Doubles.env_unknown_found "Fisher"
                    "eventim.pl" world0) 37.0%float (-88.5)%float).
    + reflexivity.
    + vm_compute. reflexivity.
Defined.

(** C7 fails as stated: with a geocoder that finds a far-away place called
    "Unknown", the candidate without sub-elements is dropped. *)
Lemma bare_element_can_be_dropped :
  ~ (exists e, fst (Main.parse_eventim_event Doubles.env_unknown_found
                      (mkElement None None None None) "Fisher" "eventim.pl"
                      world0) = Some e).
Proof.
  intros [e H]. vm_compute in H. discriminate H.
Qed.

(** *** The API adapter without a key *)

(** C6.  Without an API key [scrape_events] returns the empty list for every
    list of artists, without raising and without touching anything: no
    request is sent and the world is as before. *)
Theorem scrape_events_without_key (E : Env) (artists : list string) (w : World) :
  tm_api_key E = None ->
  Ticketmaster.scrape_events E artists w = (Ok [], w).
Proof.
  intros Hkey. unfold Ticketmaster.scrape_events. rewrite Hkey. reflexivity.
Qed.

Lemma scrape_events_without_key_witness :
  Ticketmaster.scrape_events Doubles.env_no_key Main.TARGET_ARTISTS world0
  = (Ok [], world0).
Proof.
  exact (scrape_events_without_key Doubles.env_no_key Main.TARGET_ARTISTS
           world0 eq_refl).
Defined.

(** An empty key is treated as a missing one. *)
Lemma scrape_events_empty_key (E : Env) (artists : list string) (w : World) :
  tm_api_key E = Some "" ->
  Ticketmaster.scrape_events E artists w = (Ok [], w).
Proof.
  intros Hkey. unfold Ticketmaster.scrape_events. rewrite Hkey. reflexivity.
Qed.

(** *** One event of an API response *)

Section ApiEvent.
Variable E : Env.
Variables (event : pyval) (artist : string) (w : World).
Variables (name url d : pyval).
Hypothesis head_ok : Ticketmaster.event_head event = Ticketmaster.Value (name, url, d).

(** An event whose place is computed is appended, with that place. *)
Lemma parse_event_placed (place : string) (found : option coords) :
  Ticketmaster.event_place E event = Ticketmaster.Value (place, found) ->
  Ticketmaster.parse_event E event artist w
  = (Ticketmaster.Value (mkEvent name artist d place "ticketmaster" url found
                                 (now_iso E w)),
     tick w).
Proof.
  intros Hp. unfold Ticketmaster.parse_event. rewrite head_ok, Hp. reflexivity.
Qed.

Lemma event_place_no_venue (embedded venues : pyval) :
  py_get event "_embedded" (PDict []) = Some embedded ->
  py_get embedded "venues" (PList []) = Some venues ->
  truthy venues = false ->
  Ticketmaster.event_place E event = Ticketmaster.Value ("Unknown", None).
Proof.
  intros He Hv Ht. unfold Ticketmaster.event_place.
  rewrite He. simpl. rewrite Hv. simpl. rewrite Ht. reflexivity.
Qed.

Lemma event_place_first_venue (embedded venues venue : pyval) (place : string)
    (found : option coords) :
  py_get event "_embedded" (PDict []) = Some embedded ->
  py_get embedded "venues" (PList []) = Some venues ->
  truthy venues = true ->
  py_index0 venues = Some venue ->
  Ticketmaster.venue_place E venue = Ticketmaster.Value place ->
  Ticketmaster.venue_coordinates E venue = Ticketmaster.Value found ->
  Ticketmaster.event_place E event = Ticketmaster.Value (place, found).
Proof.
  intros He Hv Ht Hi Hp Hc. unfold Ticketmaster.event_place.
  rewrite He. simpl. rewrite Hv. simpl. rewrite Ht, Hi. simpl.
  rewrite Hp. simpl. rewrite Hc. reflexivity.
Qed.

End ApiEvent.

Lemma venue_coordinates_no_location (E : Env) (venue loc : pyval) :
  py_get venue "location" PNone = Some loc ->
  truthy loc = false ->
  Ticketmaster.venue_coordinates E venue = Ticketmaster.Value None.
Proof.
  intros Hl Ht. unfold Ticketmaster.venue_coordinates.
  rewrite Hl. simpl. rewrite Ht. reflexivity.
Qed.

Lemma venue_coordinates_zero (E : Env) (venue loc : pyval) (lat lon : float) :
  py_get venue "location" PNone = Some loc ->
  truthy loc = true ->
  coordinate_reads E loc "latitude" lat ->
  coordinate_reads E loc "longitude" lon ->
  PrimFloat.eqb lat 0 = true \/ PrimFloat.eqb lon 0 = true ->
  Ticketmaster.venue_coordinates E venue = Ticketmaster.Value None.
Proof.
  intros Hl Ht (lat_raw & Hla & Hlaf) (lon_raw & Hlo & Hlof) Hz.
  unfold Ticketmaster.venue_coordinates.
  rewrite Hl. simpl. rewrite Ht, Hla. simpl. rewrite Hlaf. simpl.
  rewrite Hlo. simpl. rewrite Hlof. simpl.
  unfold float_truthy.
  destruct Hz as [Hz | Hz]; rewrite Hz; simpl.
  - reflexivity.
  - rewrite andb_false_r. reflexivity.
Qed.

(** A coordinate that the location does not give reads as zero. *)
Lemma missing_coordinate_reads_zero (E : Env) (items : list (string * pyval))
    (key : string) :
  dict_get items key = None ->
  coordinate_reads E (PDict items) key 0%float.
Proof.
  intros Hm. exists (PInt 0). simpl. rewrite Hm. split; reflexivity.
Qed.

(** A coordinate that reads as zero never leads to the distance test: the
    venue gets no coordinates, or the conversion of the other coordinate
    raises and the loop goes on to the next event. *)
Lemma zero_coordinate_never_skipped (E : Env) (venue loc : pyval) (x : float) :
  py_get venue "location" PNone = Some loc ->
  truthy loc = true ->
  PrimFloat.eqb x 0 = true ->
  coordinate_reads E loc "latitude" x \/ coordinate_reads E loc "longitude" x ->
  Ticketmaster.venue_coordinates E venue = Ticketmaster.Value None
  \/ Ticketmaster.venue_coordinates E venue = Ticketmaster.Raised.
Proof.
  intros Hl Ht Hz Hread.
  unfold Ticketmaster.venue_coordinates.
  rewrite Hl. simpl. rewrite Ht.
  destruct (py_get loc "latitude" (PInt 0)) as [lat_raw|] eqn:Hla; simpl;
    [|right; reflexivity].
  destruct (py_float E lat_raw) as [lat|] eqn:Hlaf; simpl;
    [|right; reflexivity].
  destruct (py_get loc "longitude" (PInt 0)) as [lon_raw|] eqn:Hlo; simpl;
    [|right; reflexivity].
  destruct (py_float E lon_raw) as [lon|] eqn:Hlof; simpl;
    [|right; reflexivity].
  left. unfold float_truthy.
  destruct Hread as [(raw & Hr & Hf) | (raw & Hr & Hf)].
  - rewrite Hla in Hr. injection Hr as <-. rewrite Hlaf in Hf.
    injection Hf as <-. rewrite Hz. reflexivity.
  - rewrite Hlo in Hr. injection Hr as <-. rewrite Hlof in Hf.
    injection Hf as <-. rewrite Hz, andb_false_r. reflexivity.
Qed.

(** The body of the loop for an event whose first venue gives a latitude or
    a longitude that reads as zero, both being convertible: no distance is
    computed and the event is built with its place and without
    coordinates. *)
Lemma parse_event_zero_coordinate (E : Env) (event : pyval)
    (artist : string) (w : World) (name url d embedded venues venue loc : pyval)
    (place : string) (lat lon : float) :
  Ticketmaster.event_head event = Ticketmaster.Value (name, url, d) ->
  py_get event "_embedded" (PDict []) = Some embedded ->
  py_get embedded "venues" (PList []) = Some venues ->
  truthy venues = true ->
  py_index0 venues = Some venue ->
  Ticketmaster.venue_place E venue = Ticketmaster.Value place ->
  py_get venue "location" PNone = Some loc ->
  truthy loc = true ->
  coordinate_reads E loc "latitude" lat ->
  coordinate_reads E loc "longitude" lon ->
  PrimFloat.eqb lat 0 = true \/ PrimFloat.eqb lon 0 = true ->
  Ticketmaster.venue_coordinates E venue = Ticketmaster.Value None
  /\ Ticketmaster.parse_event E event artist w
     = (Ticketmaster.Value (mkEvent name artist d place "ticketmaster" url
                                    None (now_iso E w)),
        tick w).
Proof.
  intros Hh He Hv Ht Hi Hp Hl Hlt Hla Hlo Hz.
  assert (Hc : Ticketmaster.venue_coordinates E venue = Ticketmaster.Value None).
  { exact (venue_coordinates_zero E venue loc lat lon Hl Hlt Hla Hlo Hz). }
  split; [exact Hc|].
  apply (parse_event_placed E event artist w name url d Hh).
  exact (event_place_first_venue E event embedded venues venue place None
           He Hv Ht Hi Hp Hc).
Qed.

(** C5, as the code has it.  An event without a venue is appended with
    location "Unknown" and coordinates absent.  An event whose first venue
    says nothing about where it is is appended with coordinates absent too,
    but its location is the "{city}, {country}" text of the venue.  In both
    cases no distance is computed. *)
Theorem event_without_coordinates (E : Env) (event : pyval) (artist : string)
    (w : World) (name url d embedded venues : pyval) :
  Ticketmaster.event_head event = Ticketmaster.Value (name, url, d) ->
  py_get event "_embedded" (PDict []) = Some embedded ->
  py_get embedded "venues" (PList []) = Some venues ->
  (truthy venues = false ->
   Ticketmaster.parse_event E event artist w
   = (Ticketmaster.Value (mkEvent name artist d "Unknown" "ticketmaster" url
                                  None (now_iso E w)),
      tick w))
  /\ (forall venue loc place,
        truthy venues = true ->
        py_index0 venues = Some venue ->
        Ticketmaster.venue_place E venue = Ticketmaster.Value place ->
        py_get venue "location" PNone = Some loc ->
        truthy loc = false ->
        Ticketmaster.parse_event E event artist w
        = (Ticketmaster.Value (mkEvent name artist d place "ticketmaster" url
                                       None (now_iso E w)),
           tick w)).
Proof.
  intros Hh He Hv. split.
  - intros Ht.
    apply (parse_event_placed E event artist w name url d Hh).
    exact (event_place_no_venue E event embedded venues He Hv Ht).
  - intros venue loc place Ht Hi Hp Hl Hlt.
    apply (parse_event_placed E event artist w name url d Hh).
    apply (event_place_first_venue E event embedded venues venue place None
             He Hv Ht Hi Hp).
    exact (venue_coordinates_no_location E venue loc Hl Hlt).
Qed.

Lemma event_without_coordinates_witness :
  Ticketmaster.parse_event Doubles.env_fine Doubles.event_empty "Fisher" world0
  = (Ticketmaster.Value
       (mkEvent (PStr "") "Fisher" (PStr "") "Unknown" "ticketmaster"
                (PStr "") None "2025-01-01T12:00:00"),
     tick world0)
  /\ Ticketmaster.parse_event Doubles.env_fine
       (Doubles.event_at "Klubnacht" Doubles.venue_no_location) "Fisher" world0
     = (Ticketmaster.Value
          (mkEvent (PStr "Klubnacht") "Fisher" (PStr "2025-04-12")
                   "Berlin, DE" "ticketmaster"
                   (PStr "https://www.ticketmaster.de/event/1") None
                   "2025-01-01T12:00:00"),
        tick world0).
Proof.
  split.
  - apply (proj1 (event_without_coordinates Doubles.env_fine
                    Doubles.event_empty "Fisher" world0
                    (PStr "") (PStr "") (PStr "") (PDict []) (PList [])
                    eq_refl eq_refl eq_refl)).
    reflexivity.
  - apply (proj2 (event_without_coordinates Doubles.env_fine
                    (Doubles.event_at "Klubnacht" Doubles.venue_no_location)
                    "Fisher" world0 (PStr "Klubnacht")
                    (PStr "https://www.ticketmaster.de/event/1")
                    (PStr "2025-04-12")
                    (PDict [("venues", PList [Doubles.venue_no_location])])
                    (PList [Doubles.venue_no_location])
                    eq_refl eq_refl eq_refl)
                 Doubles.venue_no_location PNone "Berlin, DE");
      reflexivity.
Defined.

(** C5 fails as stated: this event has a venue that gives no coordinates,
    and it is appended with the location "Berlin, DE", not "Unknown". *)
Lemma venue_without_coordinates_keeps_its_place :
  py_get Doubles.venue_no_location "location" PNone = Some PNone
  /\ exists e w',
       Ticketmaster.parse_events Doubles.env_fine
         (Doubles.response_of
            [Doubles.event_at "Klubnacht" Doubles.venue_no_location])
         "Fisher" world0 = (Some [e], w')
       /\ coordinates e = None
       /\ location e = "Berlin, DE"
       /\ location e <> "Unknown".
Proof.
  split; [reflexivity|].
  eexists. eexists. split; [vm_compute; reflexivity|].
  split; [reflexivity|]. split; [reflexivity|].
  simpl. discriminate.
Qed.

(** *** Titles *)

Lemma fallback_title_not_empty (artist : string) : artist ++ " - Event" <> "".
Proof. destruct artist; discriminate. Qed.

(** C4, as the code has it.  An event of the HTML adapters has as title the
    stripped text of the title element, whatever it is, and "{artist} -
    Event" when there is no title element; that fallback is not empty.  An
    event of the API adapter has as title what the response holds under
    [name], and the empty string when it holds nothing there. *)
Theorem event_titles (E : Env) :
  (forall element artist src w e w',
      Main.parse_eventim_event E element artist src w = (Some e, w') ->
      title e = PStr (match title_elem element with
                      | Some text => text
                      | None => artist ++ " - Event"
                      end)
      /\ (title_elem element = None ->
          title e = PStr (artist ++ " - Event") /\ title e <> PStr ""))
  /\ (forall event artist w e w',
        Ticketmaster.parse_event E event artist w = (Ticketmaster.Value e, w') ->
        py_get event "name" (PStr "") = Some (title e)
        /\ (forall items, event = PDict items ->
                          dict_get items "name" = None -> title e = PStr "")).
Proof.
  split.
  - intros element artist src w e w' H.
    assert (Ht : title e = PStr (match title_elem element with
                                 | Some text => text
                                 | None => artist ++ " - Event"
                                 end)).
    { revert H. unfold Main.parse_eventim_event, bind.
      rewrite get_city_coordinates_eq.
      destruct (found_coordinates _) as [c|].
      - destruct (negb _); [discriminate|].
        intros H; injection H as <- _. reflexivity.
      - intros H; injection H as <- _. reflexivity. }
    split; [exact Ht|].
    intros Hnone. rewrite Hnone in Ht. split; [exact Ht|].
    rewrite Ht. intros Heq. injection Heq as Heq.
    exact (fallback_title_not_empty artist Heq).
  - intros event artist w e w' H.
    assert (Ht : py_get event "name" (PStr "") = Some (title e)).
    { revert H. unfold Ticketmaster.parse_event.
      destruct (Ticketmaster.event_head event) as [[[name url] d]| |] eqn:Hh;
        simpl; try discriminate.
      destruct (Ticketmaster.event_place E event) as [[place found]| |];
        simpl; try discriminate.
      intros H; injection H as <- _. simpl.
      unfold Ticketmaster.event_head in Hh.
      apply step_bind_value in Hh. destruct Hh as (n & Hn & Hh).
      apply step_bind_value in Hh. destruct Hh as (u & _ & Hh).
      apply step_bind_value in Hh. destruct Hh as (dd & _ & Hh).
      apply step_bind_value in Hh. destruct Hh as (ds & _ & Hh).
      apply step_bind_value in Hh. destruct Hh as (dl & _ & Hh).
      injection Hh as -> _ _.
      exact (try_value _ _ Hn). }
    split; [exact Ht|].
    intros items -> Hmiss. simpl in Ht. rewrite Hmiss in Ht.
    injection Ht as Ht. symmetry. exact Ht.
Qed.

Lemma event_titles_witness :
  title (mkEvent (PStr "Fisher - Event") "Fisher" (PStr "") "Unknown"
                 "eventim.pl" (PStr "") None "2025-01-01T12:00:00")
  = PStr ("Fisher" ++ " - Event")
  /\ title (mkEvent (PStr "") "Fisher" (PStr "") "Unknown" "ticketmaster"
                    (PStr "") None "2025-01-01T12:00:00")
     = PStr "".
Proof.
  destruct (event_titles Doubles.env_fine) as [Hhtml Hapi].
  split.
  - apply (Hhtml Doubles.bare_card "Fisher" "eventim.pl" world0 _
                 (tick (log_geocode "Unknown" world0)) eq_refl).
    reflexivity.
  - apply (proj2 (Hapi Doubles.event_empty "Fisher" world0 _ (tick world0)
                       eq_refl) [] eq_refl eq_refl).
Defined.

(** C4 fails as stated: an API event for which the response gives no name is
    appended with the empty title, not with "Fisher - Event"; and a title
    element with no text gives an HTML event the empty title. *)
Lemma title_can_be_empty :
  (exists e w',
      Ticketmaster.parse_events Doubles.env_fine
        (Doubles.response_of [Doubles.event_empty]) "Fisher" world0
      = (Some [e], w')
      /\ title e = PStr "" /\ title e <> PStr "Fisher - Event")
  /\ (exists e w',
        Main.parse_eventim_event Doubles.env_fine
          (mkElement (Some "") None None None) "Fisher" "eventim.pl" world0
        = (Some e, w')
        /\ title e = PStr "").
Proof.
  split.
  - eexists. eexists. split; [vm_compute; reflexivity|].
    split; [reflexivity | discriminate].
  - eexists. eexists. split; [vm_compute; reflexivity|]. reflexivity.
Qed.

(** *** The whole run *)

Section Run.
Variable E : Env.

Lemma scrape_artists_down (domain : string) :
  (forall w0 a, http_html E w0 (Main.search_url domain a) = HtmlError) ->
  forall artists w, fst (Main.scrape_artists E domain artists w) = [].
Proof.
  intros Hdown. induction artists as [|a artists IH]; intros w.
  - reflexivity.
  - cbn [Main.scrape_artists]. unfold bind, ret.
    unfold Main.scrape_artist at 1. rewrite Hdown.
    specialize (IH (log_http (HtmlGet (Main.search_url domain a)) w)).
    destruct (Main.scrape_artists E domain artists _) as [more w2].
    simpl in *. exact IH.
Qed.

Lemma search_all_down :
  (forall w0 u ps, http_api E w0 u ps = ApiError) ->
  forall artists w, fst (Ticketmaster.search_all E artists w) = [].
Proof.
  intros Hdown. induction artists as [|a artists IH]; intros w.
  - reflexivity.
  - cbn [Ticketmaster.search_all]. unfold bind, ret.
    unfold Ticketmaster.search_artist_events at 1. rewrite Hdown.
    match goal with
    | |- context [Ticketmaster.search_all E artists ?w1] =>
        specialize (IH w1);
        destruct (Ticketmaster.search_all E artists w1) as [more w2]
    end.
    simpl in *. exact IH.
Qed.

Lemma scrape_eventim_total (domain : string) (w : World) :
  exists found w',
    Main.scrape_eventim E domain w = (Ok found, w')
    /\ ((forall w0 a, http_html E w0 (Main.search_url domain a) = HtmlError) ->
        found = []).
Proof.
  unfold Main.scrape_eventim, bind, ret, Main.get_session.
  pose proof (fun H => scrape_artists_down domain H Main.TARGET_ARTISTS
                         (set_session true w)) as Hdown.
  destruct (Main.scrape_artists E domain Main.TARGET_ARTISTS _) as [found w'].
  exists found, w'. split; [reflexivity | exact Hdown].
Qed.

Lemma scrape_events_total (artists : list string) (w : World) :
  exists found w',
    Ticketmaster.scrape_events E artists w = (Ok found, w')
    /\ ((forall w0 u ps, http_api E w0 u ps = ApiError) -> found = []).
Proof.
  unfold Ticketmaster.scrape_events, bind, ret.
  destruct (tm_api_key E) as [key|].
  - destruct (String.eqb key "").
    + exists [], w. split; [reflexivity | intros _; reflexivity].
    + pose proof (fun H => search_all_down H artists w) as Hdown.
      destruct (Ticketmaster.search_all E artists w) as [found w'].
      exists found, w'. split; [reflexivity | exact Hdown].
  - exists [], w. split; [reflexivity | intros _; reflexivity].
Qed.

End Run.

(** C2, as the code has it.  An adapter never raises: a request that raises
    is caught inside the adapter, and an adapter all of whose requests raise
    gives no events.  The run then ends in one of two ways.  If saving the
    events raises, the run ends with status 500 and the text of that
    exception.  Otherwise it returns a message, the number of events of all
    three adapters together, and the numbers of events of eventim.pl and of
    eventim.de; it returns no number for the API adapter and no number of
    errors.  The session is closed either way. *)
Theorem manual_scrape_outcome (E : Env) (w : World) :
  exists pl de tm w1 w2 w3,
    Main.scrape_eventim_pl E w = (Ok pl, w1)
    /\ Main.scrape_eventim_de E w1 = (Ok de, w2)
    /\ Ticketmaster.scrape_events E Main.TARGET_ARTISTS w2 = (Ok tm, w3)
    /\ ((forall w0 a, http_html E w0 (Main.search_url "eventim.pl" a) = HtmlError)
        -> pl = [])
    /\ ((forall w0 a, http_html E w0 (Main.search_url "eventim.de" a) = HtmlError)
        -> de = [])
    /\ ((forall w0 u ps, http_api E w0 u ps = ApiError) -> tm = [])
    /\ fst (Main.manual_scrape E w)
       = match fst (Main.save_events_to_db E (pl ++ de ++ tm)%list w3) with
         | Ok _ =>
             Main.Returned
               [("message", PStr "Scraping completed successfully");
                ("total_events_found",
                 PInt (Z.of_nat (List.length (pl ++ de ++ tm)%list)));
                ("eventim_pl", PInt (Z.of_nat (List.length pl)));
                ("eventim_de", PInt (Z.of_nat (List.length de)))]
         | Raise msg => Main.HTTP500 ("Scraping failed: " ++ msg)
         end
    /\ session_open (snd (Main.manual_scrape E w)) = false.
Proof.
  destruct (scrape_eventim_total E "eventim.pl" w) as (pl & w1 & Hpl & Dpl).
  destruct (scrape_eventim_total E "eventim.de" w1) as (de & w2 & Hde & Dde).
  destruct (scrape_events_total E Main.TARGET_ARTISTS w2)
    as (tm & w3 & Htm & Dtm).
  exists pl, de, tm, w1, w2, w3.
  repeat (split; [assumption|]).
  unfold Main.manual_scrape, Main.scrape_all.
  unfold Main.scrape_eventim_pl, Main.scrape_eventim_de.
  rewrite Hpl, Hde, Htm.
  destruct (Main.save_events_to_db E (pl ++ de ++ tm)%list w3)
    as [[u|msg] w4]; split; reflexivity.
Qed.

Lemma manual_scrape_outcome_witness :
  fst (Main.manual_scrape Doubles.env_all_down world0)
  = Main.Returned
      [("message", PStr "Scraping completed successfully");
       ("total_events_found", PInt 0); ("eventim_pl", PInt 0);
       ("eventim_de", PInt 0)].
Proof.
  destruct (manual_scrape_outcome Doubles.env_all_down world0)
    as (pl & de & tm & w1 & w2 & w3 & _ & _ & _ & Dpl & Dde & Dtm & Hout & _).
  rewrite Hout.
  rewrite (Dpl (fun _ _ => eq_refl)), (Dde (fun _ _ => eq_refl)),
    (Dtm (fun _ _ _ => eq_refl)).
  reflexivity.
Defined.

(** C2 fails as stated: here every request to eventim.pl raises, and the
    run returns a dictionary in which no number is different from zero, so
    no error is counted for that adapter (nor for any other); the API
    adapter has no entry of its own. *)
Lemma manual_scrape_counts_no_errors :
  exists body w',
    Main.manual_scrape Doubles.env_pl_down world0 = (Main.Returned body, w')
    /\ ~ (exists k n, dict_get body k = Some (PInt n) /\ n <> 0%Z)
    /\ dict_get body "ticketmaster" = None.
Proof.
  eexists. eexists. split; [vm_compute; reflexivity|]. split.
  - intros (k & n & Hk & Hn). simpl in Hk.
    repeat match type of Hk with
           | (if ?c then _ else _) = _ => destruct c
           end;
      try discriminate Hk; injection Hk as <-; apply Hn; reflexivity.
  - reflexivity.
Qed.

(** *** What an HTML adapter does to the world *)

Section HtmlEffects.
Variable E : Env.

(** The two ways [parse_eventim_event] can end. *)
Lemma parse_eventim_event_cases (element : Element) (who src : string)
    (w : World) :
  (exists lat lon,
      geocode E w (Main.location_text element) = GeoFound lat lon
      /\ Main.is_within_range E (lat, lon) = false
      /\ Main.parse_eventim_event E element who src w
         = (None, log_geocode (Main.location_text element) w))
  \/ (exists e,
        Main.parse_eventim_event E element who src w
        = (Some e, tick (log_geocode (Main.location_text element) w))
        /\ artist e = who
        /\ source e = src
        /\ location e = Main.location_text element
        /\ coordinates e
           = found_coordinates (geocode E w (Main.location_text element))
        /\ ticket_link e = PStr (Main.resolve_link src (link_elem element))
        /\ (forall c, coordinates e = Some c -> Main.is_within_range E c = true)).
Proof.
  unfold Main.parse_eventim_event, bind. rewrite get_city_coordinates_eq.
  destruct (geocode E w (Main.location_text element)) as [lat lon| |] eqn:Hg;
    cbn [found_coordinates].
  - destruct (Main.is_within_range E (lat, lon)) eqn:Hr; cbn [negb].
    + right. eexists. split; [reflexivity|]. cbn.
      repeat split. intros c Hc. injection Hc as <-. exact Hr.
    + left. exists lat, lon. repeat split; assumption.
  - right. eexists. split; [reflexivity|]. cbn.
    repeat split. intros c Hc. discriminate Hc.
  - right. eexists. split; [reflexivity|]. cbn.
    repeat split. intros c Hc. discriminate Hc.
Qed.

(** The world after the candidates of one page: one lookup per candidate,
    one reading of the clock per event kept, nothing else. *)
Lemma parse_candidates_world (who src : string) (elements : list Element) :
  forall w found w',
    Main.parse_candidates E elements who src w = (found, w') ->
    w' = mkWorld (geo_calls w ++ map Main.location_text elements)
                 (http_calls w) (clock_reads w + List.length found) (sleeps w)
                 (session_open w) (db_rows w)
    /\ List.length found <= List.length elements
    /\ Forall (fun e => artist e = who /\ source e = src) found.
Proof.
  induction elements as [|element elements IH]; intros w found w'.
  - cbn. unfold ret. intros H; injection H as <- <-.
    destruct w; cbn. rewrite app_nil_r, Nat.add_0_r.
    repeat split; [lia | constructor].
  - cbn [Main.parse_candidates]. unfold bind, ret.
    destruct (parse_eventim_event_cases element who src w)
      as [(lat & lon & _ & _ & Hp) | (e & Hp & Ha & Hs & _)]; rewrite Hp.
    + destruct (Main.parse_candidates E elements who src _)
        as [tail w2] eqn:Ht.
      intros H; injection H as <- <-.
      destruct (IH _ _ _ Ht) as (Hw & Hl & Hf). rewrite Hw.
      destruct w; cbn. rewrite <- app_assoc. cbn.
      repeat split; [lia | exact Hf].
    + destruct (Main.parse_candidates E elements who src _)
        as [tail w2] eqn:Ht.
      intros H; injection H as <- <-.
      destruct (IH _ _ _ Ht) as (Hw & Hl & Hf). rewrite Hw.
      destruct w; cbn. rewrite <- app_assoc. cbn.
      rewrite Nat.add_succ_r.
      repeat split; [lia | constructor; [split; assumption | exact Hf]].
Qed.

Lemma firstn_5_length {A : Type} (l : list A) : List.length (firstn 5 l) <= 5.
Proof. apply firstn_le_length. Qed.

(** One artist on one site: one request, at most five lookups, at most five
    events, at most one pause. *)
Lemma scrape_artist_world (domain who : string) (w : World) :
  exists found looked paused,
    Main.scrape_artist E domain who w
    = (found,
       mkWorld (geo_calls w ++ looked)
               (http_calls w ++ [HtmlGet (Main.search_url domain who)])
               (clock_reads w + List.length found) (paused + sleeps w)
               (session_open w) (db_rows w))
    /\ List.length found <= List.length looked
    /\ List.length looked <= 5
    /\ paused <= 1
    /\ (paused = 0 <-> http_html E w (Main.search_url domain who) = HtmlError)
    /\ Forall (fun e => artist e = who /\ source e = domain) found.
Proof.
  unfold Main.scrape_artist.
  destruct (http_html E w (Main.search_url domain who))
    as [|status candidates] eqn:Hr.
  - exists [], [], 0. split.
    + unfold log_http. rewrite app_nil_r, Nat.add_0_r. reflexivity.
    + cbn [List.length]. repeat split; try lia. constructor.
  - destruct (status =? 200)%Z.
    + destruct (Main.parse_candidates E (firstn 5 candidates) who domain _)
        as [found w2] eqn:Hp.
      destruct (parse_candidates_world _ _ _ _ _ _ Hp) as (Hw & Hl & Hf).
      exists found, (map Main.location_text (firstn 5 candidates)), 1.
      split.
      * rewrite Hw. reflexivity.
      * rewrite length_map. pose proof (firstn_5_length candidates).
        repeat split; try lia; try discriminate. exact Hf.
    + exists [], [], 1. split.
      * unfold log_http, sleep. cbn [geo_calls http_calls clock_reads sleeps
                                     session_open db_rows List.length].
        rewrite app_nil_r, Nat.add_0_r. reflexivity.
      * cbn [List.length]. repeat split; try lia; try discriminate.
        constructor.
Qed.

(** The artists in turn: one request each, in their order. *)
Lemma scrape_artists_world (domain : string) (artists : list string) :
  forall w,
  exists found looked paused groups,
    Main.scrape_artists E domain artists w
    = (found,
       mkWorld (geo_calls w ++ looked)
               (http_calls w
                ++ map (fun a => HtmlGet (Main.search_url domain a)) artists)
               (clock_reads w + List.length found) (paused + sleeps w)
               (session_open w) (db_rows w))
    /\ List.length found <= List.length looked
    /\ List.length looked <= 5 * List.length artists
    /\ paused <= List.length artists
    /\ List.length found <= 5 * List.length artists
    /\ Forall (fun e => In (artist e) artists /\ source e = domain) found
    /\ map fst groups = artists
    /\ map artist found = grouped groups
    /\ ((forall w0 a, http_html E w0 (Main.search_url domain a) <> HtmlError)
        -> paused = List.length artists)
    /\ ((forall w0 a, http_html E w0 (Main.search_url domain a) = HtmlError)
        -> paused = 0).
Proof.
  induction artists as [|a artists IH]; intros w.
  - exists [], [], 0, []. split.
    + cbn. unfold ret. destruct w; cbn.
      rewrite !app_nil_r, Nat.add_0_r. reflexivity.
    + cbn. repeat split; try lia. constructor.
  - cbn [Main.scrape_artists]. unfold bind, ret.
    destruct (scrape_artist_world domain a w)
      as (f1 & l1 & p1 & H1 & Hfl1 & Hl1 & Hp1 & Hz1 & Hf1).
    rewrite H1.
    match goal with
    | |- context [Main.scrape_artists E domain artists ?w1] =>
        destruct (IH w1)
          as (f2 & l2 & p2 & g2 & H2 & Hfl2 & Hl2 & Hp2 & Hn2 & Hf2 & Hg2
              & Ho2 & Hall2 & Hnone2)
    end.
    rewrite H2.
    exists (f1 ++ f2)%list, (l1 ++ l2)%list, (p2 + p1), ((a, List.length f1) :: g2).
    split.
    + cbn [geo_calls http_calls clock_reads sleeps session_open db_rows map].
      rewrite <- !app_assoc, length_app, !Nat.add_assoc. reflexivity.
    + rewrite !length_app. cbn [List.length map fst].
      repeat split; try lia.
      * apply Forall_app. split.
        -- eapply Forall_impl; [|exact Hf1].
           intros e [Ha Hs]. split; [left; symmetry; exact Ha | exact Hs].
        -- eapply Forall_impl; [|exact Hf2].
           intros e [Ha Hs]. split; [right; exact Ha | exact Hs].
      * rewrite Hg2. reflexivity.
      * rewrite map_app, Ho2. unfold grouped. cbn [flat_map fst snd].
        f_equal.
        clear - Hf1. induction Hf1 as [|e f [Ha _] _ IHf]; cbn.
        -- reflexivity.
        -- rewrite Ha, IHf. reflexivity.
      * intros Hup. specialize (Hall2 Hup).
        assert (p1 <> 0) by (intros Hp; apply (Hup w a), Hz1, Hp). lia.
      * intros Hdown. specialize (Hnone2 Hdown).
        assert (p1 = 0) by (apply Hz1, Hdown). lia.
Qed.

End HtmlEffects.

(** *** What the API adapter does to the world *)

Section ApiEffects.
Variable E : Env.

Lemma parse_event_world (event : pyval) (who : string) (w : World) :
  (exists e,
      Ticketmaster.parse_event E event who w = (Ticketmaster.Value e, tick w)
      /\ artist e = who /\ source e = "ticketmaster"
      /\ Some (title e) = py_get event "name" (PStr "")
      /\ Some (ticket_link e) = py_get event "url" (PStr ""))
  \/ Ticketmaster.parse_event E event who w = (Ticketmaster.Raised, w)
  \/ Ticketmaster.parse_event E event who w = (Ticketmaster.Skipped, w).
Proof.
  unfold Ticketmaster.parse_event.
  destruct (Ticketmaster.event_head event) as [[[name url] d]| |] eqn:Hh;
    cbn [Ticketmaster.step_bind]; [|right; left; reflexivity|right; right; reflexivity].
  destruct (Ticketmaster.event_place E event) as [[place found]| |];
    cbn [Ticketmaster.step_bind]; [|right; left; reflexivity|right; right; reflexivity].
  left. eexists. split; [reflexivity|]. cbn.
  unfold Ticketmaster.event_head in Hh.
  apply step_bind_value in Hh. destruct Hh as (n & Hn & Hh).
  apply step_bind_value in Hh. destruct Hh as (u & Hu & Hh).
  apply step_bind_value in Hh. destruct Hh as (dd & _ & Hh).
  apply step_bind_value in Hh. destruct Hh as (ds & _ & Hh).
  apply step_bind_value in Hh. destruct Hh as (dl & _ & Hh).
  injection Hh as -> -> _.
  apply try_value in Hn, Hu. rewrite Hn, Hu. repeat split.
Qed.

Lemma parse_event_list_world (who : string) (events : list pyval) :
  forall w found w',
    Ticketmaster.parse_event_list E events who w = (found, w') ->
    w' = mkWorld (geo_calls w) (http_calls w)
                 (clock_reads w + List.length found) (sleeps w)
                 (session_open w) (db_rows w)
    /\ List.length found <= List.length events
    /\ Forall (fun e => artist e = who /\ source e = "ticketmaster") found.
Proof.
  induction events as [|event events IH]; intros w found w'.
  - cbn. unfold ret. intros H; injection H as <- <-.
    destruct w; cbn. rewrite Nat.add_0_r. repeat split; [lia | constructor].
  - cbn [Ticketmaster.parse_event_list]. unfold bind, ret.
    destruct (parse_event_world event who w)
      as [(e & Hp & Ha & Hs & _) | [Hp | Hp]]; rewrite Hp;
      destruct (Ticketmaster.parse_event_list E events who _)
        as [tail w2] eqn:Ht;
      intros H; injection H as <- <-;
      destruct (IH _ _ _ Ht) as (Hw & Hl & Hf); rewrite Hw.
    + destruct w; cbn. rewrite Nat.add_succ_r.
      repeat split; [lia | constructor; [split; assumption | exact Hf]].
    + cbn. repeat split; [lia | exact Hf].
    + cbn. repeat split; [lia | exact Hf].
Qed.

(** A response for which the debugging line can count the events is one
    [parse_events] does not raise on, and it gives at most that many. *)
Lemma parse_events_counted (data : pyval) (who : string) (w : World) (n : nat) :
  Ticketmaster.debug_count data = Some n ->
  exists found w',
    Ticketmaster.parse_events E data who w = (Some found, w')
    /\ List.length found <= n.
Proof.
  unfold Ticketmaster.debug_count, Ticketmaster.parse_events.
  destruct data as [| | | | |l|items]; try discriminate.
  cbn [py_get py_contains py_getitem].
  destruct (dict_get items "_embedded") as [embedded|].
  - destruct embedded as [| | | | |l|inner]; try discriminate.
    cbn [py_get py_contains py_getitem].
    destruct (dict_get inner "events") as [events|].
    + intros Hn.
      assert (Hi : exists its, py_iter events = Some its /\ List.length its = n).
      { destruct events as [| | | |t|l|d]; try discriminate Hn;
          cbn in Hn; injection Hn as <-; eexists; (split; [reflexivity|]).
        - clear. induction t as [|c t IHt]; cbn; [reflexivity | now rewrite IHt].
        - reflexivity.
        - apply length_map. }
      destruct Hi as (its & Hi & Hlen). rewrite Hi.
      destruct (Ticketmaster.parse_event_list E its who w) as [found w'] eqn:Hp.
      destruct (parse_event_list_world _ _ _ _ _ Hp) as (_ & Hl & _).
      exists found, w'. split; [reflexivity | lia].
    + intros _. exists [], w. split; [reflexivity | cbn; lia].
  - intros _. exists [], w. split; [reflexivity | cbn; lia].
Qed.

Lemma parse_events_world (data : pyval) (who : string) (w : World) :
  exists found,
    snd (Ticketmaster.parse_events E data who w)
    = mkWorld (geo_calls w) (http_calls w)
              (clock_reads w + List.length found) (sleeps w)
              (session_open w) (db_rows w)
    /\ (fst (Ticketmaster.parse_events E data who w) = Some found
        \/ fst (Ticketmaster.parse_events E data who w) = None /\ found = [])
    /\ Forall (fun e => artist e = who /\ source e = "ticketmaster") found.
Proof.
  assert (Hsame : w = mkWorld (geo_calls w) (http_calls w)
                              (clock_reads w + 0) (sleeps w)
                              (session_open w) (db_rows w)).
  { destruct w; cbn. rewrite Nat.add_0_r. reflexivity. }
  unfold Ticketmaster.parse_events.
  destruct (py_contains data "_embedded") as [[|]|];
    try (exists []; cbn; repeat split; auto; constructor).
  destruct (py_getitem data "_embedded") as [embedded|];
    try (exists []; cbn; repeat split; auto; constructor).
  destruct (py_contains embedded "events") as [[|]|];
    try (exists []; cbn; repeat split; auto; constructor).
  destruct (py_getitem embedded "events") as [events|];
    try (exists []; cbn; repeat split; auto; constructor).
  destruct (py_iter events) as [items|];
    try (exists []; cbn; repeat split; auto; constructor).
  destruct (Ticketmaster.parse_event_list E items who w) as [found w'] eqn:Hp.
  destruct (parse_event_list_world _ _ _ _ _ Hp) as (Hw & _ & Hf).
  exists found. cbn. repeat split; auto.
Qed.

Lemma search_artist_events_world (who : string) (w : World) :
  exists found,
    Ticketmaster.search_artist_events E who w
    = (found,
       mkWorld (geo_calls w)
               (http_calls w
                ++ [ApiGet Ticketmaster.base_url
                      (Ticketmaster.search_params
                         (Ticketmaster.api_key_value E) who)])
               (clock_reads w + List.length found) (sleeps w)
               (session_open w) (db_rows w))
    /\ Forall (fun e => artist e = who /\ source e = "ticketmaster") found.
Proof.
  unfold Ticketmaster.search_artist_events.
  set (w1 := log_http _ w).
  assert (Hnone : ([] : list Event, w1)
                  = ([], mkWorld (geo_calls w)
                           (http_calls w
                            ++ [ApiGet Ticketmaster.base_url
                                  (Ticketmaster.search_params
                                     (Ticketmaster.api_key_value E) who)])
                           (clock_reads w + List.length ([] : list Event))
                           (sleeps w) (session_open w) (db_rows w))).
  { unfold w1, log_http. cbn [List.length]. rewrite Nat.add_0_r. reflexivity. }
  destruct (http_api E w _ _) as [|status [data|]];
    try (exists []; split; [exact Hnone | constructor]).
  - destruct (status =? 200)%Z;
      try (exists []; split; [exact Hnone | constructor]).
    destruct (Ticketmaster.debug_count data);
      try (exists []; split; [exact Hnone | constructor]).
    destruct (parse_events_world data who w1) as (found & Hw & Hr & Hf).
    destruct (Ticketmaster.parse_events E data who w1) as [r w2].
    cbn [fst snd] in Hw, Hr. subst w2.
    destruct Hr as [-> | [-> ->]].
    + exists found. split; [reflexivity | exact Hf].
    + exists []. split; [reflexivity | constructor].
  - destruct (status =? 200)%Z;
      exists []; (split; [exact Hnone | constructor]).
Qed.

Lemma search_all_world (artists : list string) :
  forall w,
  exists found groups,
    Ticketmaster.search_all E artists w
    = (found,
       mkWorld (geo_calls w)
               (http_calls w
                ++ map (fun a => ApiGet Ticketmaster.base_url
                                   (Ticketmaster.search_params
                                      (Ticketmaster.api_key_value E) a))
                       artists)
               (clock_reads w + List.length found) (sleeps w)
               (session_open w) (db_rows w))
    /\ Forall (fun e => In (artist e) artists /\ source e = "ticketmaster")
              found
    /\ map fst groups = artists
    /\ map artist found = grouped groups.
Proof.
  induction artists as [|a artists IH]; intros w.
  - exists [], []. split.
    + cbn. unfold ret. destruct w; cbn.
      rewrite app_nil_r, Nat.add_0_r. reflexivity.
    + cbn. repeat split. constructor.
  - cbn [Ticketmaster.search_all]. unfold bind, ret.
    destruct (search_artist_events_world a w) as (f1 & H1 & Hf1).
    rewrite H1.
    match goal with
    | |- context [Ticketmaster.search_all E artists ?w1] =>
        destruct (IH w1) as (f2 & g2 & H2 & Hf2 & Hg2 & Ho2)
    end.
    rewrite H2.
    exists (f1 ++ f2)%list, ((a, List.length f1) :: g2).
    split.
    + cbn [geo_calls http_calls clock_reads sleeps session_open db_rows map].
      rewrite <- !app_assoc, length_app, !Nat.add_assoc. reflexivity.
    + cbn [map fst]. repeat split.
      * apply Forall_app. split.
        -- eapply Forall_impl; [|exact Hf1].
           intros e [Ha Hs]. split; [left; symmetry; exact Ha | exact Hs].
        -- eapply Forall_impl; [|exact Hf2].
           intros e [Ha Hs]. split; [right; exact Ha | exact Hs].
      * rewrite Hg2. reflexivity.
      * rewrite map_app, Ho2. unfold grouped. cbn [flat_map fst snd].
        f_equal.
        clear - Hf1. induction Hf1 as [|e f [Ha _] _ IHf]; cbn.
        -- reflexivity.
        -- rewrite Ha, IHf. reflexivity.
Qed.

End ApiEffects.

(** *** The adapters as a whole *)

Lemma scrape_eventim_world (E : Env) (domain : string) (w : World) :
  exists found looked paused groups,
    Main.scrape_eventim E domain w
    = (Ok found,
       mkWorld (geo_calls w ++ looked)
               (http_calls w
                ++ map (fun a => HtmlGet (Main.search_url domain a))
                       Main.TARGET_ARTISTS)
               (clock_reads w + List.length found) (paused + sleeps w)
               true (db_rows w))
    /\ List.length found <= List.length looked
    /\ List.length looked <= 75
    /\ paused <= 15
    /\ List.length found <= 75
    /\ Forall (fun e => In (artist e) Main.TARGET_ARTISTS /\ source e = domain)
              found
    /\ map fst groups = Main.TARGET_ARTISTS
    /\ map artist found = grouped groups
    /\ ((forall w0 a, http_html E w0 (Main.search_url domain a) <> HtmlError)
        -> paused = 15)
    /\ ((forall w0 a, http_html E w0 (Main.search_url domain a) = HtmlError)
        -> paused = 0).
Proof.
  unfold Main.scrape_eventim, bind, ret, Main.get_session.
  destruct (scrape_artists_world E domain Main.TARGET_ARTISTS
              (set_session true w))
    as (found & looked & paused & groups & H & Hrest).
  rewrite H. exists found, looked, paused, groups.
  split; [reflexivity | exact Hrest].
Qed.

(** X1.  An HTML adapter keeps at most five events per artist: a search
    over any list of artists gives at most five times as many events as
    there are artists, whatever the pages hold, and a run of either site
    adapter gives at most 75. *)
Theorem at_most_five_events_per_artist (E : Env) (w : World) :
  (forall domain artists,
      List.length (fst (Main.scrape_artists E domain artists w))
      <= 5 * List.length artists)
  /\ (exists found w',
        Main.scrape_eventim_pl E w = (Ok found, w') /\ List.length found <= 75)
  /\ (exists found w',
        Main.scrape_eventim_de E w = (Ok found, w') /\ List.length found <= 75).
Proof.
  split; [|split].
  - intros domain artists.
    destruct (scrape_artists_world E domain artists w)
      as (found & looked & paused & groups & H & _ & _ & _ & Hn & _).
    rewrite H. exact Hn.
  - destruct (scrape_eventim_world E "eventim.pl" w)
      as (found & looked & paused & groups & H & _ & _ & _ & Hn & _).
    eexists. eexists. split; [exact H | exact Hn].
  - destruct (scrape_eventim_world E "eventim.de" w)
      as (found & looked & paused & groups & H & _ & _ & _ & Hn & _).
    eexists. eexists. split; [exact H | exact Hn].
Qed.

(** X2.  Every event of an HTML adapter carries one of the artists searched
    for, verbatim, and the domain of the site as its source; and the events
    come grouped by artist in the order of the artist list. *)
Theorem html_events_by_artist (E : Env) (domain : string)
    (artists : list string) (w : World) :
  Forall (fun e => In (artist e) artists /\ source e = domain)
         (fst (Main.scrape_artists E domain artists w))
  /\ exists counts,
       List.length counts = List.length artists
       /\ map artist (fst (Main.scrape_artists E domain artists w))
          = grouped (combine artists counts).
Proof.
  destruct (scrape_artists_world E domain artists w)
    as (found & looked & paused & groups & H & _ & _ & _ & _ & Hf & Hg & Ho & _).
  rewrite H. cbn [fst]. split; [exact Hf|].
  exists (map snd groups). split.
  - rewrite <- Hg, !length_map. reflexivity.
  - rewrite Ho, <- Hg. f_equal.
    clear. induction groups as [|[a n] groups IH]; cbn; [reflexivity|].
    rewrite <- IH. reflexivity.
Qed.

(** X3.  Every event of the API adapter carries one of the artists searched
    for, verbatim, and the source "ticketmaster"; and the events come
    grouped by artist in the order of the artist list. *)
Theorem api_events_by_artist (E : Env) (artists : list string) (w : World) :
  exists found w',
    Ticketmaster.scrape_events E artists w = (Ok found, w')
    /\ Forall (fun e => In (artist e) artists /\ source e = "ticketmaster")
              found
    /\ exists counts,
         List.length counts = List.length artists
         /\ map artist found = grouped (combine artists counts).
Proof.
  assert (Hnone : exists counts,
             List.length counts = List.length artists
             /\ map artist ([] : list Event) = grouped (combine artists counts)).
  { exists (repeat 0 (List.length artists)). split; [apply repeat_length|].
    clear. induction artists as [|a artists IH]; cbn; [reflexivity | exact IH]. }
  unfold Ticketmaster.scrape_events, bind, ret.
  destruct (tm_api_key E) as [key|].
  - destruct (String.eqb key "").
    + exists [], w. repeat split; [constructor | exact Hnone].
    + destruct (search_all_world E artists w)
        as (found & groups & H & Hf & Hg & Ho).
      rewrite H. eexists. eexists. split; [reflexivity|].
      split; [exact Hf|].
      exists (map snd groups). split.
      * rewrite <- Hg, !length_map. reflexivity.
      * rewrite Ho, <- Hg. f_equal.
        clear. induction groups as [|[a n] groups IH]; cbn; [reflexivity|].
        rewrite <- IH. reflexivity.
  - exists [], w. repeat split; [constructor | exact Hnone].
Qed.

(** X4.  An HTML adapter sends exactly one request per artist, in the order
    of the artist list, to the search address of that artist, whatever the
    site answers. *)
Theorem one_page_request_per_artist (E : Env) (domain : string)
    (artists : list string) (w : World) :
  http_calls (snd (Main.scrape_artists E domain artists w))
  = (http_calls w
     ++ map (fun a => HtmlGet ("https://www." ++ domain ++ "/search/?term="
                               ++ replace_char " " "+" a)) artists)%list.
Proof.
  destruct (scrape_artists_world E domain artists w)
    as (found & looked & paused & groups & H & _).
  rewrite H. reflexivity.
Qed.

(** X5.  With a key that is not empty the API adapter sends exactly one
    request per artist, in the order of the artist list, with the artist as
    keyword, the key, the four countries, the music classification, a size
    of 100 and the date order. *)
Theorem one_api_request_per_artist (E : Env) (key : string)
    (artists : list string) (w : World) :
  tm_api_key E = Some key ->
  key <> "" ->
  http_calls (snd (Ticketmaster.scrape_events E artists w))
  = (http_calls w
     ++ map (fun a => ApiGet "https://app.ticketmaster.com/discovery/v2/events"
                        [("apikey", PStr key); ("keyword", PStr a);
                         ("size", PInt 100);
                         ("countryCode", PStr "PL,DE,CZ,SK");
                         ("classificationName", PStr "Music");
                         ("sort", PStr "date,asc")]) artists)%list.
Proof.
  intros Hkey Hne. unfold Ticketmaster.scrape_events, bind, ret.
  rewrite Hkey. apply String.eqb_neq in Hne. rewrite Hne.
  destruct (search_all_world E artists w) as (found & groups & H & _).
  rewrite H. cbn [snd http_calls].
  unfold Ticketmaster.api_key_value. rewrite Hkey. reflexivity.
Qed.

Lemma one_api_request_per_artist_witness :
  http_calls (snd (Ticketmaster.scrape_events Doubles.env_fine
                     ["Fisher"; "Carl Cox"] world0))
  = [ApiGet "https://app.ticketmaster.com/discovery/v2/events"
       [("apikey", PStr "k3y"); ("keyword", PStr "Fisher"); ("size", PInt 100);
        ("countryCode", PStr "PL,DE,CZ,SK");
        ("classificationName", PStr "Music"); ("sort", PStr "date,asc")];
     ApiGet "https://app.ticketmaster.com/discovery/v2/events"
       [("apikey", PStr "k3y"); ("keyword", PStr "Carl Cox");
        ("size", PInt 100); ("countryCode", PStr "PL,DE,CZ,SK");
        ("classificationName", PStr "Music"); ("sort", PStr "date,asc")]].
Proof.
  apply (one_api_request_per_artist Doubles.env_fine "k3y"
           ["Fisher"; "Carl Cox"] world0 eq_refl).
  discriminate.
Defined.

(** X6.  An HTML adapter pauses once after each artist whose request did not
    raise, and not at all after one whose request raised: the number of
    pauses never exceeds the number of artists, it is the number of artists
    when no request raises, and it is zero when every request raises. *)
Theorem pauses_follow_requests (E : Env) (domain : string)
    (artists : list string) (w : World) :
  sleeps w <= sleeps (snd (Main.scrape_artists E domain artists w))
  /\ sleeps (snd (Main.scrape_artists E domain artists w))
     <= sleeps w + List.length artists
  /\ ((forall w0 a, http_html E w0 (Main.search_url domain a) <> HtmlError) ->
      sleeps (snd (Main.scrape_artists E domain artists w))
      = sleeps w + List.length artists)
  /\ ((forall w0 a, http_html E w0 (Main.search_url domain a) = HtmlError) ->
      sleeps (snd (Main.scrape_artists E domain artists w)) = sleeps w).
Proof.
  destruct (scrape_artists_world E domain artists w)
    as (found & looked & paused & groups & H & _ & _ & Hp & _ & _ & _ & _
        & Hup & Hdown).
  rewrite H. cbn [snd sleeps].
  repeat split; try lia.
  - intros Hall. rewrite (Hup Hall). lia.
  - intros Hall. rewrite (Hdown Hall). lia.
Qed.

Lemma pauses_follow_requests_witness :
  sleeps (snd (Main.scrape_artists Doubles.env_fine "eventim.de"
                 ["Fisher"; "Carl Cox"] world0)) = 2
  /\ sleeps (snd (Main.scrape_artists Doubles.env_all_down "eventim.de"
                    ["Fisher"; "Carl Cox"] world0)) = 0.
Proof.
  split.
  - apply (proj1 (proj2 (proj2 (pauses_follow_requests Doubles.env_fine
                                  "eventim.de" ["Fisher"; "Carl Cox"] world0)))).
    intros w0 a. cbn. unfold Doubles.one_page.
    destruct (String.eqb _ _); discriminate.
  - apply (proj2 (proj2 (proj2 (pauses_follow_requests Doubles.env_all_down
                                  "eventim.de" ["Fisher"; "Carl Cox"] world0)))).
    intros w0 a. reflexivity.
Defined.

(** X7.  An HTML adapter asks the geocoder once for every candidate it looks
    at and for nothing else: the lookups of a run are added behind the
    earlier ones, there are at most five per artist, and no more events
    come out than lookups went in. *)
Theorem lookups_per_artist (E : Env) (domain : string)
    (artists : list string) (w : World) :
  exists looked,
    geo_calls (snd (Main.scrape_artists E domain artists w))
    = (geo_calls w ++ looked)%list
    /\ List.length looked <= 5 * List.length artists
    /\ List.length (fst (Main.scrape_artists E domain artists w))
       <= List.length looked.
Proof.
  destruct (scrape_artists_world E domain artists w)
    as (found & looked & paused & groups & H & Hfl & Hl & _).
  rewrite H. exists looked. repeat split; assumption.
Qed.

(** X8.  The API adapter never asks the geocoder, never pauses, never
    touches the HTTP session of the scraper and never writes to the
    database, with or without a key. *)
Theorem api_adapter_footprint (E : Env) (artists : list string) (w : World) :
  let w' := snd (Ticketmaster.scrape_events E artists w) in
  geo_calls w' = geo_calls w
  /\ sleeps w' = sleeps w
  /\ session_open w' = session_open w
  /\ db_rows w' = db_rows w.
Proof.
  unfold Ticketmaster.scrape_events, bind, ret.
  destruct (tm_api_key E) as [key|]; [destruct (String.eqb key "")|];
    try (cbn; repeat split; reflexivity).
  destruct (search_all_world E artists w) as (found & groups & H & _).
  rewrite H. cbn. repeat split; reflexivity.
Qed.

(** X9.  The clock is read once for every event emitted and never
    otherwise, by the HTML adapters and by the API adapter alike. *)
Theorem one_clock_reading_per_event (E : Env) (w : World) :
  (forall domain artists,
      clock_reads (snd (Main.scrape_artists E domain artists w))
      = clock_reads w
        + List.length (fst (Main.scrape_artists E domain artists w)))
  /\ (forall artists,
        clock_reads (snd (Ticketmaster.search_all E artists w))
        = clock_reads w
          + List.length (fst (Ticketmaster.search_all E artists w))).
Proof.
  split.
  - intros domain artists.
    destruct (scrape_artists_world E domain artists w)
      as (found & looked & paused & groups & H & _).
    rewrite H. reflexivity.
  - intros artists.
    destruct (search_all_world E artists w) as (found & groups & H & _).
    rewrite H. reflexivity.
Qed.

(** *** One candidate, in full *)

(** X10.  A candidate is dropped exactly when the geocoder finds its
    location and the place found is not within range.  In every other case
    (place within range, place not found, geocoder failing) it is kept, with
    the artist and source given, its location text, and as coordinates
    exactly what the geocoder found. *)
Theorem candidate_dropped_iff (E : Env) (element : Element) (who src : string)
    (w : World) :
  (fst (Main.parse_eventim_event E element who src w) = None
   <-> exists lat lon,
         geocode E w (Main.location_text element) = GeoFound lat lon
         /\ Main.is_within_range E (lat, lon) = false)
  /\ (forall e,
        fst (Main.parse_eventim_event E element who src w) = Some e ->
        artist e = who /\ source e = src
        /\ location e = Main.location_text element
        /\ coordinates e
           = found_coordinates (geocode E w (Main.location_text element))).
Proof.
  destruct (parse_eventim_event_cases E element who src w)
    as [(lat & lon & Hg & Hr & Hp) | (e & Hp & Ha & Hs & Hl & Hc & _ & Hin)];
    rewrite Hp; cbn [fst].
  - split.
    + split; [intros _; exists lat, lon; split; assumption | reflexivity].
    + intros e He. discriminate He.
  - split.
    + split; [discriminate|].
      intros (lat & lon & Hg & Hr). rewrite Hg in Hc. cbn in Hc.
      rewrite (Hin _ Hc) in Hr. discriminate Hr.
    + intros e' He. injection He as <-. repeat split; assumption.
Qed.

Lemma candidate_dropped_iff_witness :
  fst (Main.parse_eventim_event Doubles.env_unknown_found Doubles.bare_card
         "Fisher" "eventim.pl" world0) = None
  /\ coordinates
       (mkEvent (PStr "Amelie Lens live") "Amelie Lens" (PStr "12.04.2025")
                "Berlin" "eventim.de"
                (PStr "https://www.eventim.de/event/amelie-lens-berlin")
                (Some (52.52, 13.405)%float) "2025-01-01T12:00:00")
     = found_coordinates (GeoFound 52.52 13.405).
Proof.
  split.
  - apply (proj1 (candidate_dropped_iff Doubles.env_unknown_found
                    Doubles.bare_card "Fisher" "eventim.pl" world0)).
    exists 37.0%float, (-88.5)%float. split; [reflexivity|].
    vm_compute. reflexivity.
  - apply (proj2 (candidate_dropped_iff Doubles.env_fine Doubles.berlin_card
                    "Amelie Lens" "eventim.de" world0) _ eq_refl).
Defined.

Lemma prefix_append (a b : string) : String.prefix a (a ++ b) = true.
Proof.
  induction a as [|c a IH]; cbn.
  - destruct b; reflexivity.
  - destruct (ascii_dec c c) as [_|Hne]; [exact IH | now destruct Hne].
Qed.

Lemma prefix_slash (href : string) :
  String.prefix "/" href = true -> exists path, href = "/" ++ path.
Proof.
  destruct href as [|c path]; [discriminate|].
  unfold String.prefix. destruct (ascii_dec "/" c) as [<-|]; [|discriminate].
  intros _. exists path. reflexivity.
Qed.

Lemma append_assoc (a b c : string) : (a ++ b) ++ c = a ++ (b ++ c).
Proof. induction a as [|x a IH]; cbn; [reflexivity | now rewrite IH]. Qed.

(** X11.  The ticket link of an event kept: empty when the candidate has no
    link, the address of the site followed by the path when the link starts
    with a slash (so it starts with "https://www.{source}/"), and the link
    unchanged otherwise. *)
Theorem ticket_link_resolved (E : Env) (element : Element) (who src : string)
    (w : World) (e : Event) :
  fst (Main.parse_eventim_event E element who src w) = Some e ->
  match link_elem element with
  | None => ticket_link e = PStr ""
  | Some href =>
      if String.prefix "/" href then
        exists path,
          href = "/" ++ path
          /\ ticket_link e = PStr ("https://www." ++ src ++ "/" ++ path)
          /\ String.prefix ("https://www." ++ src ++ "/")
                           (Main.resolve_link src (Some href)) = true
      else ticket_link e = PStr href
  end.
Proof.
  intros He.
  destruct (parse_eventim_event_cases E element who src w)
    as [(lat & lon & _ & _ & Hp) | (e' & Hp & _ & _ & _ & _ & Hl & _)];
    rewrite Hp in He; cbn [fst] in He; [discriminate|].
  injection He as <-. rewrite Hl.
  destruct (link_elem element) as [href|]; [|reflexivity].
  unfold Main.resolve_link.
  destruct (String.prefix "/" href) eqn:Hpre; [|reflexivity].
  destruct (prefix_slash href Hpre) as (path & ->).
  exists path. split; [reflexivity|]. split; [reflexivity|].
  rewrite <- (append_assoc src "/" path).
  rewrite <- (append_assoc "https://www." (src ++ "/") path).
  rewrite <- (append_assoc "https://www." src "/").
  apply prefix_append.
Qed.

Lemma ticket_link_resolved_witness :
  (exists path,
      "/event/amelie-lens-berlin" = "/" ++ path
      /\ PStr "https://www.eventim.de/event/amelie-lens-berlin"
         = PStr ("https://www." ++ "eventim.de" ++ "/" ++ path)
      /\ String.prefix ("https://www." ++ "eventim.de" ++ "/")
           (Main.resolve_link "eventim.de" (Some "/event/amelie-lens-berlin"))
         = true)
  /\ PStr "https://tickets.example/carl-cox"
     = PStr "https://tickets.example/carl-cox".
Proof.
  split.
  - exact (ticket_link_resolved Doubles.env_fine Doubles.berlin_card
             "Amelie Lens" "eventim.de" world0 _ eq_refl).
  - exact (ticket_link_resolved Doubles.env_fine Doubles.linked_card
             "Carl Cox" "eventim.de" world0 _ eq_refl).
Defined.

Lemma has_char_append (c : ascii) (a b : string) :
  has_char c (a ++ b) = has_char c a || has_char c b.
Proof.
  induction a as [|x a IH]; cbn; [reflexivity|].
  rewrite IH, orb_assoc. reflexivity.
Qed.

Lemma replace_char_removes (a b : ascii) (s : string) :
  a <> b -> has_char a (replace_char a b s) = false.
Proof.
  intros Hab. induction s as [|c s IH]; cbn; [reflexivity|].
  rewrite IH, orb_false_r.
  destruct (Ascii.eqb c a) eqn:Hc.
  - apply Ascii.eqb_neq. intros Hba. apply Hab. symmetry. exact Hba.
  - exact Hc.
Qed.

(** X12.  The search address of either site never contains a space,
    whatever the name of the artist: every space of the name has become a
    plus sign, and the name keeps its length. *)
Theorem search_url_has_no_space (who : string) :
  has_char " " (Main.search_url "eventim.pl" who) = false
  /\ has_char " " (Main.search_url "eventim.de" who) = false
  /\ String.length (replace_char " " "+" who) = String.length who.
Proof.
  assert (Hr : has_char " " (replace_char " " "+" who) = false).
  { apply replace_char_removes. discriminate. }
  unfold Main.search_url. repeat split.
  - rewrite !has_char_append, Hr. reflexivity.
  - rewrite !has_char_append, Hr. reflexivity.
  - clear Hr. induction who as [|c s IH]; cbn; [reflexivity | now rewrite IH].
Qed.

(** *** One event of a response, in full *)

Lemma venue_coordinates_measured (E : Env) (venue loc : pyval) (lat lon : float) :
  py_get venue "location" PNone = Some loc ->
  truthy loc = true ->
  coordinate_reads E loc "latitude" lat ->
  coordinate_reads E loc "longitude" lon ->
  PrimFloat.eqb lat 0 = false ->
  PrimFloat.eqb lon 0 = false ->
  Ticketmaster.venue_coordinates E venue
  = match geodesic E Ticketmaster.WROCLAW_COORDS (lat, lon) with
    | None => Ticketmaster.Raised
    | Some km =>
        if PrimFloat.ltb Ticketmaster.MAX_DISTANCE_KM km
        then Ticketmaster.Skipped
        else Ticketmaster.Value (Some (lat, lon))
    end.
Proof.
  intros Hl Ht (lat_raw & Hla & Hlaf) (lon_raw & Hlo & Hlof) Hzla Hzlo.
  unfold Ticketmaster.venue_coordinates.
  rewrite Hl. simpl. rewrite Ht, Hla. simpl. rewrite Hlaf. simpl.
  rewrite Hlo. simpl. rewrite Hlof. simpl.
  unfold float_truthy. rewrite Hzla, Hzlo. simpl.
  destruct (geodesic E Ticketmaster.WROCLAW_COORDS (lat, lon)); reflexivity.
Qed.

(** X13.  The distance test of the API adapter, for an event that is
    otherwise well formed and whose first venue gives a latitude and a
    longitude that are both not zero: if the distance cannot be computed
    the event is left out; if it is more than 1000 km the event is left
    out; otherwise the event is appended with these coordinates.  An event
    left out reads no clock. *)
Theorem api_distance_test (E : Env) (event : pyval) (who : string) (w : World)
    (name url d embedded venues venue loc : pyval) (place : string)
    (lat lon : float) :
  Ticketmaster.event_head event = Ticketmaster.Value (name, url, d) ->
  py_get event "_embedded" (PDict []) = Some embedded ->
  py_get embedded "venues" (PList []) = Some venues ->
  truthy venues = true ->
  py_index0 venues = Some venue ->
  Ticketmaster.venue_place E venue = Ticketmaster.Value place ->
  py_get venue "location" PNone = Some loc ->
  truthy loc = true ->
  coordinate_reads E loc "latitude" lat ->
  coordinate_reads E loc "longitude" lon ->
  PrimFloat.eqb lat 0 = false ->
  PrimFloat.eqb lon 0 = false ->
  Ticketmaster.parse_event E event who w
  = match geodesic E (51.1079, 17.0385)%float (lat, lon) with
    | None => (Ticketmaster.Raised, w)
    | Some km =>
        if PrimFloat.ltb 1000 km then (Ticketmaster.Skipped, w)
        else (Ticketmaster.Value
                (mkEvent name who d place "ticketmaster" url (Some (lat, lon))
                         (now_iso E w)),
              tick w)
    end.
Proof.
  intros Hh He Hv Ht Hi Hp Hl Hlt Hla Hlo Hzla Hzlo.
  pose proof (venue_coordinates_measured E venue loc lat lon
                Hl Hlt Hla Hlo Hzla Hzlo) as Hc.
  unfold Ticketmaster.parse_event, Ticketmaster.event_place.
  rewrite Hh, He. simpl. rewrite Hv. simpl. rewrite Ht, Hi. simpl.
  rewrite Hp. simpl. rewrite Hc.
  change Ticketmaster.WROCLAW_COORDS with (51.1079, 17.0385)%float.
  change Ticketmaster.MAX_DISTANCE_KM with 1000%float.
  destruct (geodesic E (51.1079, 17.0385)%float (lat, lon)) as [km|];
    [|reflexivity].
  destruct (PrimFloat.ltb 1000 km); reflexivity.
Qed.

Lemma api_distance_test_witness :
  Ticketmaster.parse_event Doubles.env_fine
    (Doubles.event_at "Fado" Doubles.venue_lisboa) "Fisher" world0
  = (Ticketmaster.Skipped, world0)
  /\ Ticketmaster.parse_event Doubles.env_fine
       (Doubles.event_at "Klubnacht" Doubles.venue_berlin_numbers) "Fisher"
       world0
     = (Ticketmaster.Value
          (mkEvent (PStr "Klubnacht") "Fisher" (PStr "2025-04-12")
                   "Berlin, DE" "ticketmaster"
                   (PStr "https://www.ticketmaster.de/event/1")
                   (Some (52.52, 13.405)%float) "2025-01-01T12:00:00"),
        tick world0).
Proof.
  split.
  - rewrite (api_distance_test Doubles.env_fine
               (Doubles.event_at "Fado" Doubles.venue_lisboa) "Fisher" world0
               (PStr "Fado") (PStr "https://www.ticketmaster.de/event/1")
               (PStr "2025-04-12")
               (PDict [("venues", PList [Doubles.venue_lisboa])])
               (PList [Doubles.venue_lisboa]) Doubles.venue_lisboa
               (PDict [("latitude", PFloat 38.7223);
                       ("longitude", PFloat (-9.1393))])
               "Lisboa, PT" 38.7223%float (-9.1393)%float
               eq_refl eq_refl eq_refl eq_refl eq_refl eq_refl eq_refl eq_refl
               (ex_intro _ (PFloat 38.7223) (conj eq_refl eq_refl))
               (ex_intro _ (PFloat (-9.1393)) (conj eq_refl eq_refl))
               eq_refl eq_refl).
    vm_compute. reflexivity.
  - rewrite (api_distance_test Doubles.env_fine
               (Doubles.event_at "Klubnacht" Doubles.venue_berlin_numbers)
               "Fisher" world0
               (PStr "Klubnacht") (PStr "https://www.ticketmaster.de/event/1")
               (PStr "2025-04-12")
               (PDict [("venues", PList [Doubles.venue_berlin_numbers])])
               (PList [Doubles.venue_berlin_numbers])
               Doubles.venue_berlin_numbers
               (PDict [("latitude", PFloat 52.52);
                       ("longitude", PFloat 13.405)])
               "Berlin, DE" 52.52%float 13.405%float
               eq_refl eq_refl eq_refl eq_refl eq_refl eq_refl eq_refl eq_refl
               (ex_intro _ (PFloat 52.52) (conj eq_refl eq_refl))
               (ex_intro _ (PFloat 13.405) (conj eq_refl eq_refl))
               eq_refl eq_refl).
    vm_compute. reflexivity.
Defined.

Lemma parse_event_list_app (E : Env) (who : string) (xs ys : list pyval) :
  forall w,
    Ticketmaster.parse_event_list E (xs ++ ys) who w
    = (let (f1, w1) := Ticketmaster.parse_event_list E xs who w in
       let (f2, w2) := Ticketmaster.parse_event_list E ys who w1 in
       ((f1 ++ f2)%list, w2)).
Proof.
  induction xs as [|x xs IH]; intros w.
  - cbn. unfold ret.
    destruct (Ticketmaster.parse_event_list E ys who w); reflexivity.
  - cbn [app Ticketmaster.parse_event_list]. unfold bind, ret.
    destruct (Ticketmaster.parse_event E x who w) as [s w1].
    rewrite IH.
    destruct (Ticketmaster.parse_event_list E xs who w1) as [f1 w2].
    destruct (Ticketmaster.parse_event_list E ys who w2) as [f2 w3].
    destruct s; reflexivity.
Qed.

(** X14.  The events of a response are handled one by one: the events of
    two lists put together are the events of the first followed by those of
    the second; an entry that is not a JSON object raises and is left out;
    and an entry that is left out, for whatever reason, changes nothing for
    the entries after it. *)
Theorem events_handled_one_by_one (E : Env) (who : string) (w : World) :
  (forall xs ys,
      Ticketmaster.parse_event_list E (xs ++ ys) who w
      = (let (f1, w1) := Ticketmaster.parse_event_list E xs who w in
         let (f2, w2) := Ticketmaster.parse_event_list E ys who w1 in
         ((f1 ++ f2)%list, w2)))
  /\ (forall entry,
        match entry with
        | PDict _ => True
        | _ => Ticketmaster.parse_event E entry who w = (Ticketmaster.Raised, w)
        end)
  /\ (forall entry rest,
        (forall e, fst (Ticketmaster.parse_event E entry who w)
                   <> Ticketmaster.Value e) ->
        Ticketmaster.parse_event_list E (entry :: rest) who w
        = Ticketmaster.parse_event_list E rest who w).
Proof.
  split; [|split].
  - intros xs ys. apply parse_event_list_app.
  - intros entry. destruct entry; try exact I; reflexivity.
  - intros entry rest Hout.
    cbn [Ticketmaster.parse_event_list]. unfold bind, ret.
    destruct (parse_event_world E entry who w)
      as [(e & Hp & _) | [Hp | Hp]]; rewrite Hp in *.
    + exfalso. exact (Hout e eq_refl).
    + destruct (Ticketmaster.parse_event_list E rest who w); reflexivity.
    + destruct (Ticketmaster.parse_event_list E rest who w); reflexivity.
Qed.

Lemma events_handled_one_by_one_witness :
  Ticketmaster.parse_event_list Doubles.env_fine
    [PStr "oops"; Doubles.event_at "Klubnacht" Doubles.venue_berlin] "Fisher"
    world0
  = Ticketmaster.parse_event_list Doubles.env_fine
      [Doubles.event_at "Klubnacht" Doubles.venue_berlin] "Fisher" world0.
Proof.
  apply (proj2 (proj2 (events_handled_one_by_one Doubles.env_fine "Fisher"
                         world0))).
  intros e H. discriminate H.
Defined.

(** X15.  A response with status 200 whose events the debugging line of
    [search_artist_events] can count is one on which [parse_events] does not
    raise: the search returns exactly the events [parse_events] gives, and
    these are at most as many as were counted. *)
Theorem counted_response_is_parsed (E : Env) (who : string) (w : World)
    (data : pyval) (n : nat) :
  http_api E w Ticketmaster.base_url
           (Ticketmaster.search_params (Ticketmaster.api_key_value E) who)
  = ApiResponse 200 (Some data) ->
  Ticketmaster.debug_count data = Some n ->
  exists found,
    fst (Ticketmaster.parse_events E data who
           (log_http (ApiGet Ticketmaster.base_url
                        (Ticketmaster.search_params
                           (Ticketmaster.api_key_value E) who)) w))
    = Some found
    /\ fst (Ticketmaster.search_artist_events E who w) = found
    /\ List.length found <= n.
Proof.
  intros Hr Hn.
  destruct (parse_events_counted E data who
              (log_http (ApiGet Ticketmaster.base_url
                           (Ticketmaster.search_params
                              (Ticketmaster.api_key_value E) who)) w) n Hn)
    as (found & w' & Hp & Hl).
  exists found. rewrite Hp. split; [reflexivity|]. split; [|exact Hl].
  unfold Ticketmaster.search_artist_events.
  rewrite Hr. cbn [Z.eqb Pos.eqb]. rewrite Hn, Hp. reflexivity.
Qed.

Lemma counted_response_is_parsed_witness :
  exists found,
    fst (Ticketmaster.search_artist_events Doubles.env_fine "Fisher" world0)
    = found
    /\ List.length found <= 1.
Proof.
  destruct (counted_response_is_parsed Doubles.env_fine "Fisher" world0
              (Doubles.response_of
                 [Doubles.event_at "Amelie Lens" Doubles.venue_berlin])
              1 eq_refl eq_refl)
    as (found & _ & Hs & Hl).
  exists found. split; [exact Hs | exact Hl].
Defined.

(** *** The run and the database *)

Lemma scrape_events_frame (E : Env) (artists : list string) (w : World) :
  exists found w',
    Ticketmaster.scrape_events E artists w = (Ok found, w')
    /\ db_rows w' = db_rows w
    /\ session_open w' = session_open w
    /\ Forall (fun e => source e = "ticketmaster") found.
Proof.
  unfold Ticketmaster.scrape_events, bind, ret.
  destruct (tm_api_key E) as [key|]; [destruct (String.eqb key "")|];
    try (exists [], w; repeat split; constructor).
  destruct (search_all_world E artists w) as (found & groups & H & Hf & _).
  rewrite H. eexists. eexists. split; [reflexivity|].
  cbn. repeat split.
  eapply Forall_impl; [|exact Hf]. intros e [_ Hs]. exact Hs.
Qed.

Lemma filter_source_all (s : string) (l : list Event) :
  Forall (fun e => source e = s) l ->
  filter (fun e => String.eqb (source e) s) l = l.
Proof.
  induction 1 as [|e l He _ IH]; cbn; [reflexivity|].
  rewrite He, String.eqb_refl, IH. reflexivity.
Qed.

Lemma filter_source_none (s t : string) (l : list Event) :
  s <> t ->
  Forall (fun e => source e = t) l ->
  filter (fun e => String.eqb (source e) s) l = [].
Proof.
  intros Hne. induction 1 as [|e l He _ IH]; cbn; [reflexivity|].
  rewrite He. apply not_eq_sym in Hne. apply String.eqb_neq in Hne.
  rewrite Hne. exact IH.
Qed.

(** The run up to the save: three lists of events, each with its own
    source, and a database not yet touched. *)
Lemma scrape_all_cases (E : Env) (w : World) :
  exists pl de tm w3,
    Forall (fun e => source e = "eventim.pl") pl
    /\ Forall (fun e => source e = "eventim.de") de
    /\ Forall (fun e => source e = "ticketmaster") tm
    /\ db_rows w3 = db_rows w
    /\ Main.scrape_all E w
       = match Main.save_events_to_db E (pl ++ de ++ tm)%list w3 with
         | (Raise msg, w4) => (Raise msg, w4)
         | (Ok _, w4) =>
             (Ok [("message", PStr "Scraping completed successfully");
                  ("total_events_found",
                   PInt (Z.of_nat (List.length (pl ++ de ++ tm)%list)));
                  ("eventim_pl", PInt (Z.of_nat (List.length pl)));
                  ("eventim_de", PInt (Z.of_nat (List.length de)))],
              w4)
         end.
Proof.
  destruct (scrape_eventim_world E "eventim.pl" w)
    as (pl & l1 & p1 & g1 & Hpl & _ & _ & _ & _ & Fpl & _).
  match type of Hpl with _ = (_, ?w1) =>
    destruct (scrape_eventim_world E "eventim.de" w1)
      as (de & l2 & p2 & g2 & Hde & _ & _ & _ & _ & Fde & _)
  end.
  match type of Hde with _ = (_, ?w2) =>
    destruct (scrape_events_frame E Main.TARGET_ARTISTS w2)
      as (tm & w3 & Htm & Hdb & _ & Ftm)
  end.
  exists pl, de, tm, w3.
  split; [eapply Forall_impl; [|exact Fpl]; intros e [_ Hs]; exact Hs|].
  split; [eapply Forall_impl; [|exact Fde]; intros e [_ Hs]; exact Hs|].
  split; [exact Ftm|].
  split; [rewrite Hdb; reflexivity|].
  unfold Main.scrape_all, Main.scrape_eventim_pl, Main.scrape_eventim_de.
  rewrite Hpl, Hde, Htm. reflexivity.
Qed.

(** The world after the inserts: the rows inserted are the first events of
    the list, all of them when no insert raises; nothing else changes. *)
Lemma insert_all_world (E : Env) (events : list Event) :
  forall w r w',
    Main.insert_all E events w = (r, w') ->
    exists done rest,
      events = (done ++ rest)%list
      /\ w' = mkWorld (geo_calls w) (http_calls w) (clock_reads w) (sleeps w)
                      (session_open w) (db_rows w ++ done)
      /\ (r = Ok tt -> rest = []).
Proof.
  induction events as [|e events IH]; intros w r w'.
  - cbn. intros H; injection H as <- <-. exists [], [].
    destruct w; cbn. rewrite app_nil_r. repeat split.
  - cbn [Main.insert_all].
    destruct (db_execute E w (Insert e)) as [msg|].
    + intros H; injection H as <- <-. exists [], (e :: events).
      destruct w; cbn. rewrite app_nil_r.
      repeat split. discriminate.
    + intros H. destruct (IH _ _ _ H) as (done & rest & Hev & Hw & Hok).
      exists (e :: done), rest. rewrite Hev, Hw.
      cbn. rewrite <- app_assoc. repeat split. exact Hok.
Qed.

(** The world after a save: the rows inserted are the first events of the
    list, all of them when the save does not raise; the clock is read at
    most once; nothing else changes. *)
Lemma save_events_to_db_world (E : Env) (events : list Event) (w : World) :
  exists done rest reads,
    events = (done ++ rest)%list
    /\ snd (Main.save_events_to_db E events w)
       = mkWorld (geo_calls w) (http_calls w) (reads + clock_reads w)
                 (sleeps w) (session_open w) (db_rows w ++ done)
    /\ reads <= 1
    /\ (forall u, fst (Main.save_events_to_db E events w) = Ok u -> rest = []).
Proof.
  unfold Main.save_events_to_db.
  destruct events as [|e events].
  - exists [], [], 0. destruct w; cbn. rewrite app_nil_r. repeat split. lia.
  - destruct (db_connect E w) as [msg|].
    + exists [], (e :: events), 0. destruct w; cbn. rewrite app_nil_r.
      repeat split; [lia | discriminate].
    + destruct (db_execute E (tick w) (Purge (now_iso E w))) as [msg|].
      * exists [], (e :: events), 1.
        destruct (db_close E (tick w)); destruct w; cbn; rewrite app_nil_r;
          repeat split; try lia; discriminate.
      * destruct (Main.insert_all E (e :: events) (tick w)) as [r w2] eqn:Hi.
        destruct (insert_all_world E _ _ _ _ Hi) as (done & rest & Hev & Hw & Hok).
        exists done, rest, 1. split; [exact Hev|].
        destruct (db_close E w2); cbn [fst snd]; rewrite Hw;
          (split; [reflexivity|]); (split; [lia|]).
        -- discriminate.
        -- intros u ->. apply Hok. destruct u. reflexivity.
Qed.

(** The run up to the save, with the three adapters as they ran. *)
Lemma scrape_all_run (E : Env) (w : World) :
  exists pl de tm w1 w2 w3,
    Main.scrape_eventim_pl E w = (Ok pl, w1)
    /\ Main.scrape_eventim_de E w1 = (Ok de, w2)
    /\ Ticketmaster.scrape_events E Main.TARGET_ARTISTS w2 = (Ok tm, w3)
    /\ db_rows w3 = db_rows w
    /\ Main.scrape_all E w
       = match Main.save_events_to_db E (pl ++ de ++ tm)%list w3 with
         | (Raise msg, w4) => (Raise msg, w4)
         | (Ok _, w4) =>
             (Ok [("message", PStr "Scraping completed successfully");
                  ("total_events_found",
                   PInt (Z.of_nat (List.length (pl ++ de ++ tm)%list)));
                  ("eventim_pl", PInt (Z.of_nat (List.length pl)));
                  ("eventim_de", PInt (Z.of_nat (List.length de)))],
              w4)
         end.
Proof.
  destruct (scrape_eventim_world E "eventim.pl" w)
    as (pl & l1 & p1 & g1 & Hpl & _).
  match type of Hpl with _ = (_, ?w1) =>
    destruct (scrape_eventim_world E "eventim.de" w1)
      as (de & l2 & p2 & g2 & Hde & _)
  end.
  match type of Hde with _ = (_, ?w2) =>
    destruct (scrape_events_frame E Main.TARGET_ARTISTS w2)
      as (tm & w3 & Htm & Hdb & _)
  end.
  eexists pl, de, tm, _, _, w3.
  split; [exact Hpl|]. split; [exact Hde|]. split; [exact Htm|].
  split; [rewrite Hdb; reflexivity|].
  unfold Main.scrape_all.
  change (Main.scrape_eventim_pl E w) with (Main.scrape_eventim E "eventim.pl" w).
  rewrite Hpl.
  change (Main.scrape_eventim_de E) with (Main.scrape_eventim E "eventim.de").
  rewrite Hde, Htm. reflexivity.
Qed.

(** X16.  The run ends with status 500 only when saving the events it found
    raises, which needs at least one event: the detail is then "Scraping
    failed: " followed by the text of that exception.  A run that finds no
    event returns, with all numbers zero, whatever the state of the
    database.  In every case the rows the run has inserted are the first of
    the events it found, in their order (all of them only if nothing
    raised before the last insert), and the session is closed. *)
Theorem run_fails_only_when_saving (E : Env) (w : World) :
  exists pl de tm w1 w2 w3,
    Main.scrape_eventim_pl E w = (Ok pl, w1)
    /\ Main.scrape_eventim_de E w1 = (Ok de, w2)
    /\ Ticketmaster.scrape_events E Main.TARGET_ARTISTS w2 = (Ok tm, w3)
    /\ (forall detail,
          fst (Main.manual_scrape E w) = Main.HTTP500 detail ->
          (pl ++ de ++ tm)%list <> []
          /\ exists msg,
               fst (Main.save_events_to_db E (pl ++ de ++ tm)%list w3)
               = Raise msg
               /\ detail = "Scraping failed: " ++ msg)
    /\ ((pl ++ de ++ tm)%list = [] ->
        fst (Main.manual_scrape E w)
        = Main.Returned
            [("message", PStr "Scraping completed successfully");
             ("total_events_found", PInt 0); ("eventim_pl", PInt 0);
             ("eventim_de", PInt 0)])
    /\ (exists done rest,
          (pl ++ de ++ tm)%list = (done ++ rest)%list
          /\ db_rows (snd (Main.manual_scrape E w)) = (db_rows w ++ done)%list)
    /\ session_open (snd (Main.manual_scrape E w)) = false.
Proof.
  destruct (scrape_all_run E w)
    as (pl & de & tm & w1 & w2 & w3 & Hpl & Hde & Htm & Hdb & Hall).
  exists pl, de, tm, w1, w2, w3.
  split; [exact Hpl|]. split; [exact Hde|]. split; [exact Htm|].
  unfold Main.manual_scrape. rewrite Hall.
  destruct (save_events_to_db_world E (pl ++ de ++ tm)%list w3)
    as (done & rest & reads & Hev & Hw & _ & _).
  destruct (Main.save_events_to_db E (pl ++ de ++ tm)%list w3)
    as [[u|msg] w4] eqn:Hsave; cbn [fst snd] in *.
  - split; [intros detail H; discriminate H|].
    split.
    + intros Hnone. apply app_eq_nil in Hnone. destruct Hnone as [-> Hnone].
      apply app_eq_nil in Hnone. destruct Hnone as [-> ->]. reflexivity.
    + split; [|reflexivity].
      exists done, rest. split; [exact Hev|].
      rewrite Hw. cbn. rewrite Hdb. reflexivity.
  - split.
    + intros detail H. injection H as <-. split.
      * intros Hnone. rewrite Hnone in Hsave. discriminate Hsave.
      * exists msg. split; reflexivity.
    + split.
      * intros Hnone. rewrite Hnone in Hsave. discriminate Hsave.
      * split; [|reflexivity].
        exists done, rest. split; [exact Hev|].
        rewrite Hw. cbn. rewrite Hdb. reflexivity.
Qed.

Lemma run_fails_only_when_saving_witness :
  (exists pl de tm w1 w2 w3,
      Main.scrape_eventim_pl Doubles.env_db_down world0 = (Ok pl, w1)
      /\ Main.scrape_eventim_de Doubles.env_db_down w1 = (Ok de, w2)
      /\ Ticketmaster.scrape_events Doubles.env_db_down Main.TARGET_ARTISTS w2
         = (Ok tm, w3)
      /\ (pl ++ de ++ tm)%list <> []
      /\ exists msg,
           fst (Main.save_events_to_db Doubles.env_db_down
                  (pl ++ de ++ tm)%list w3) = Raise msg
           /\ "Scraping failed: connection refused" = "Scraping failed: " ++ msg)
  /\ fst (Main.manual_scrape Doubles.env_all_down_db_down world0)
     = Main.Returned
         [("message", PStr "Scraping completed successfully");
          ("total_events_found", PInt 0); ("eventim_pl", PInt 0);
          ("eventim_de", PInt 0)].
Proof.
  split.
  - destruct (run_fails_only_when_saving Doubles.env_db_down world0)
      as (pl & de & tm & w1 & w2 & w3 & Hpl & Hde & Htm & H500 & _).
    exists pl, de, tm, w1, w2, w3.
    split; [exact Hpl|]. split; [exact Hde|]. split; [exact Htm|].
    apply (H500 "Scraping failed: connection refused").
    vm_compute. reflexivity.
  - destruct (run_fails_only_when_saving Doubles.env_all_down_db_down world0)
      as (pl & de & tm & w1 & w2 & w3 & Hpl & Hde & Htm & _ & Hnone & _).
    apply Hnone.
    vm_compute in Hpl. injection Hpl as <- <-.
    vm_compute in Hde. injection Hde as <- <-.
    vm_compute in Htm. injection Htm as <- <-.
    reflexivity.
Defined.

(** X17.  A run that returns has saved what it counted: the rows it
    inserted come behind those inserted before, [total_events_found] is
    their number, [eventim_pl] and [eventim_de] are the numbers of rows with that
    source, and the rows with source "ticketmaster" make up the rest. *)
Theorem run_saves_what_it_counts (E : Env) (w : World)
    (body : list (string * pyval)) :
  fst (Main.manual_scrape E w) = Main.Returned body ->
  exists saved,
    db_rows (snd (Main.manual_scrape E w)) = (db_rows w ++ saved)%list
    /\ dict_get body "total_events_found"
       = Some (PInt (Z.of_nat (List.length saved)))
    /\ dict_get body "eventim_pl"
       = Some (PInt (Z.of_nat (List.length
            (filter (fun e => String.eqb (source e) "eventim.pl") saved))))
    /\ dict_get body "eventim_de"
       = Some (PInt (Z.of_nat (List.length
            (filter (fun e => String.eqb (source e) "eventim.de") saved))))
    /\ Forall (fun e => source e = "eventim.pl" \/ source e = "eventim.de"
                        \/ source e = "ticketmaster") saved.
Proof.
  unfold Main.manual_scrape.
  destruct (scrape_all_cases E w)
    as (pl & de & tm & w3 & Fpl & Fde & Ftm & Hdb & Hall).
  rewrite Hall.
  assert (Hcount :
    filter (fun e => String.eqb (source e) "eventim.pl") (pl ++ de ++ tm) = pl
    /\ filter (fun e => String.eqb (source e) "eventim.de") (pl ++ de ++ tm)
       = de).
  { rewrite !filter_app.
    rewrite (filter_source_all _ _ Fpl), (filter_source_all _ _ Fde).
    rewrite (filter_source_none "eventim.pl" "eventim.de" de),
      (filter_source_none "eventim.pl" "ticketmaster" tm),
      (filter_source_none "eventim.de" "eventim.pl" pl),
      (filter_source_none "eventim.de" "ticketmaster" tm);
      try assumption; try discriminate.
    rewrite !app_nil_r. split; reflexivity. }
  assert (Hsrc : Forall (fun e => source e = "eventim.pl"
                                  \/ source e = "eventim.de"
                                  \/ source e = "ticketmaster")
                        (pl ++ de ++ tm)).
  { rewrite !Forall_app. repeat split.
    - eapply Forall_impl; [|exact Fpl]. intros e H. left. exact H.
    - eapply Forall_impl; [|exact Fde]. intros e H. right. left. exact H.
    - eapply Forall_impl; [|exact Ftm]. intros e H. right. right. exact H. }
  destruct Hcount as [Hcpl Hcde].
  destruct (save_events_to_db_world E (pl ++ de ++ tm)%list w3)
    as (done & rest & reads & Hev & Hw & _ & Hok).
  destruct (Main.save_events_to_db E (pl ++ de ++ tm)%list w3)
    as [[u|msg] w4]; cbn [fst snd] in *; [|discriminate].
  intros H. injection H as <-.
  rewrite (Hok u eq_refl), app_nil_r in Hev. subst done.
  exists (pl ++ de ++ tm)%list. rewrite Hcpl, Hcde, Hw.
  cbn. rewrite Hdb. repeat split. exact Hsrc.
Qed.

Lemma run_saves_what_it_counts_witness :
  exists saved,
    db_rows (snd (Main.manual_scrape Doubles.env_fine world0)) = saved
    /\ Z.of_nat (List.length saved) = 16%Z
    /\ List.length
         (filter (fun e => String.eqb (source e) "eventim.de") saved) = 1.
Proof.
  destruct (run_saves_what_it_counts Doubles.env_fine world0
              [("message", PStr "Scraping completed successfully");
               ("total_events_found", PInt 16); ("eventim_pl", PInt 0);
               ("eventim_de", PInt 1)])
    as (saved & Hrows & Htotal & _ & Hde & _).
  - vm_compute. reflexivity.
  - exists saved. split; [exact Hrows|].
    cbn in Htotal, Hde. injection Htotal as Htotal. injection Hde as Hde.
    split; [symmetry; exact Htotal | lia].
Defined.

(** *** The query of the events endpoint *)

Lemma add_filter_given (column : string) (value : option string)
    (query : string) (params : list pyval) :
  fst (Endpoints.add_filter column value (query, params))
  = (if Endpoints.given value
     then query ++ " AND LOWER(" ++ column ++ ") LIKE LOWER($"
                ++ Endpoints.str_of_nat (List.length params + 1) ++ ")"
     else query)
  /\ List.length (snd (Endpoints.add_filter column value (query, params)))
     = List.length params + (if Endpoints.given value then 1 else 0).
Proof.
  unfold Endpoints.add_filter, Endpoints.given.
  destruct value as [text|]; [destruct (String.eqb text "")|]; cbn [negb fst snd];
    try (split; [reflexivity | lia]).
  split; [reflexivity|]. rewrite length_app. reflexivity.
Qed.

(** X18.  The text of a filter never becomes part of the statement
    [get_events] sends: the statement depends only on which of the two
    filters are given (present and not empty), not on what they say nor on
    the limit; the texts and the limit travel as parameters. *)
Theorem statement_ignores_filter_text (artist1 artist2 location1 location2
    : option string) (limit1 limit2 : Z) :
  Endpoints.given artist1 = Endpoints.given artist2 ->
  Endpoints.given location1 = Endpoints.given location2 ->
  fst (Endpoints.get_events_query artist1 location1 limit1)
  = fst (Endpoints.get_events_query artist2 location2 limit2).
Proof.
  intros Ha Hl. unfold Endpoints.get_events_query.
  pose proof (add_filter_given "artist" artist1
                "SELECT * FROM events WHERE 1=1" []) as [Hq1 Hn1].
  pose proof (add_filter_given "artist" artist2
                "SELECT * FROM events WHERE 1=1" []) as [Hq2 Hn2].
  destruct (Endpoints.add_filter "artist" artist1 _) as [q1 p1].
  destruct (Endpoints.add_filter "artist" artist2 _) as [q2 p2].
  cbn [fst snd] in Hq1, Hn1, Hq2, Hn2.
  pose proof (add_filter_given "location" location1 q1 p1) as [Hq3 Hn3].
  pose proof (add_filter_given "location" location2 q2 p2) as [Hq4 Hn4].
  destruct (Endpoints.add_filter "location" location1 _) as [q3 p3].
  destruct (Endpoints.add_filter "location" location2 _) as [q4 p4].
  cbn [fst snd] in *.
  assert (Hp12 : List.length p1 = List.length p2) by (rewrite Hn1, Hn2, Ha; reflexivity).
  assert (Hq12 : q1 = q2) by (rewrite Hq1, Hq2, Ha; reflexivity).
  assert (Hp34 : List.length p3 = List.length p4)
    by (rewrite Hn3, Hn4, Hl, Hp12; reflexivity).
  assert (Hq34 : q3 = q4) by (rewrite Hq3, Hq4, Hl, Hq12, Hp12; reflexivity).
  rewrite Hq34, Hp34. reflexivity.
Qed.

Lemma statement_ignores_filter_text_witness :
  fst (Endpoints.get_events_query (Some "Fisher") None 50)
  = fst (Endpoints.get_events_query (Some "x'; DROP TABLE events; --")
                                    (Some "") 100).
Proof.
  exact (statement_ignores_filter_text (Some "Fisher")
           (Some "x'; DROP TABLE events; --") None (Some "") 50 100
           eq_refl eq_refl).
Defined.

(** X19.  The parameters of the statement are the filters given, each
    between two percent signs, followed by the limit; the limit is always
    the last parameter and the LIMIT clause, which ends the statement,
    refers to it by its position. *)
Theorem limit_is_last_parameter (artist location : option string) (limit : Z) :
  let (query, params) := Endpoints.get_events_query artist location limit in
  params
  = ((if Endpoints.given artist
      then [PStr ("%" ++ match artist with Some t => t | None => "" end ++ "%")]
      else [])
     ++ (if Endpoints.given location
         then [PStr ("%" ++ match location with Some t => t | None => "" end
                         ++ "%")]
         else [])
     ++ [PInt limit])%list
  /\ exists filters,
       query = filters ++ " ORDER BY scraped_at DESC LIMIT $"
                       ++ Endpoints.str_of_nat (List.length params)
       /\ nth_error params (List.length params - 1) = Some (PInt limit).
Proof.
  unfold Endpoints.get_events_query, Endpoints.add_filter, Endpoints.given.
  destruct artist as [a|]; [destruct (String.eqb a "")|];
    (destruct location as [l|]; [destruct (String.eqb l "")|]);
    cbn [negb app List.length];
    (split; [reflexivity|]; eexists; split; reflexivity).
Qed.

(** *** Coordinates through the database *)

Lemma venue_coordinates_not_zero (E : Env) (venue : pyval) (lat lon : float) :
  Ticketmaster.venue_coordinates E venue = Ticketmaster.Value (Some (lat, lon)) ->
  float_truthy lat = true /\ float_truthy lon = true.
Proof.
  unfold Ticketmaster.venue_coordinates, Ticketmaster.step_bind, Ticketmaster.try_.
  intros H. repeat split_match H.
  injection H as <- <-. apply andb_true_iff. assumption.
Qed.

Lemma parse_event_not_zero (E : Env) (event : pyval) (who : string)
    (w w' : World) (e : Event) (lat lon : float) :
  Ticketmaster.parse_event E event who w = (Ticketmaster.Value e, w') ->
  coordinates e = Some (lat, lon) ->
  float_truthy lat = true /\ float_truthy lon = true.
Proof.
  unfold Ticketmaster.parse_event.
  destruct (Ticketmaster.event_head event) as [[[name url] d]| |]; simpl;
    try discriminate.
  destruct (Ticketmaster.event_place E event) as [[place found]| |] eqn:Hp;
    simpl; try discriminate.
  intros H; injection H as <- _. simpl. intros ->.
  unfold Ticketmaster.event_place in Hp.
  apply step_bind_value in Hp. destruct Hp as (embedded & _ & Hp).
  apply step_bind_value in Hp. destruct Hp as (venues & _ & Hp).
  destruct (truthy venues); [|discriminate Hp].
  apply step_bind_value in Hp. destruct Hp as (venue & _ & Hp).
  apply step_bind_value in Hp. destruct Hp as (text & _ & Hp).
  apply step_bind_value in Hp. destruct Hp as (found & Hv & Hp).
  injection Hp as _ ->.
  exact (venue_coordinates_not_zero E venue lat lon Hv).
Qed.

(** X20.  The coordinates of an event through the two coordinate columns and
    back, as [save_events_to_db] writes them and [get_events] reads them.
    An event without coordinates comes back without.  An event of the API
    adapter comes back with its coordinates, because that adapter never
    gives an event a latitude of zero.  Any event whose latitude is zero
    comes back without coordinates. *)
Theorem coordinates_through_columns (E : Env) :
  (forall e,
      coordinates e = None ->
      Endpoints.row_coordinates (fst (Endpoints.coordinate_columns e))
                                (snd (Endpoints.coordinate_columns e))
      = PNone)
  /\ (forall event who w e w',
        Ticketmaster.parse_event E event who w = (Ticketmaster.Value e, w') ->
        Endpoints.row_coordinates (fst (Endpoints.coordinate_columns e))
                                  (snd (Endpoints.coordinate_columns e))
        = coordinates_value (coordinates e))
  /\ (forall e lat lon,
        coordinates e = Some (lat, lon) ->
        PrimFloat.eqb lat 0 = true ->
        Endpoints.row_coordinates (fst (Endpoints.coordinate_columns e))
                                  (snd (Endpoints.coordinate_columns e))
        = PNone).
Proof.
  split; [|split].
  - intros e Hc. unfold Endpoints.coordinate_columns. rewrite Hc. reflexivity.
  - intros event who w e w' Hp.
    unfold Endpoints.coordinate_columns, Endpoints.row_coordinates.
    destruct (coordinates e) as [[lat lon]|] eqn:Hc; [|reflexivity].
    destruct (parse_event_not_zero E event who w w' e lat lon Hp Hc) as [Hla _].
    cbn [fst snd truthy coordinates_value]. rewrite Hla. reflexivity.
  - intros e lat lon Hc Hz.
    unfold Endpoints.coordinate_columns, Endpoints.row_coordinates.
    rewrite Hc. cbn [fst snd truthy]. unfold float_truthy. rewrite Hz.
    reflexivity.
Qed.

Lemma coordinates_through_columns_witness :
  Endpoints.row_coordinates (PFloat 52.52) (PFloat 13.405)
  = PList [PFloat 52.52; PFloat 13.405]
  /\ Endpoints.row_coordinates (PFloat 0) (PFloat (-78.5)) = PNone
  /\ Endpoints.row_coordinates PNone PNone = PNone.
Proof.
  destruct (coordinates_through_columns Doubles.env_fine)
    as (Hnone & Hapi & Hzero).
  split; [|split].
  - exact (Hapi (Doubles.event_at "Klubnacht" Doubles.venue_berlin_numbers)
                "Fisher" world0 _ (tick world0) eq_refl).
  - exact (Hzero (mkEvent (PStr "Mitad del Mundo") "Fisher" (PStr "") "Quito"
                          "eventim.de" (PStr "") (Some (0, -78.5)%float)
                          "2025-01-01T12:00:00")
                 0%float (-78.5)%float eq_refl eq_refl).
  - exact (Hnone (mkEvent (PStr "") "Fisher" (PStr "") "Unknown" "eventim.de"
                          (PStr "") None "2025-01-01T12:00:00") eq_refl).
Defined.

(** *** Pages and responses that are not used *)

Lemma scrape_artist_unused (E : Env) (domain a : string) (w : World) :
  match http_html E w (Main.search_url domain a) with
  | HtmlError => True
  | HtmlPage status _ => status <> 200%Z
  end ->
  exists w1,
    Main.scrape_artist E domain a w = ([], w1)
    /\ geo_calls w1 = geo_calls w /\ clock_reads w1 = clock_reads w.
Proof.
  unfold Main.scrape_artist.
  destruct (http_html E w (Main.search_url domain a)) as [|status cands].
  - intros _. eexists. split; [reflexivity|]. split; reflexivity.
  - intros Hs. apply Z.eqb_neq in Hs. rewrite Hs.
    eexists. split; [reflexivity|]. split; reflexivity.
Qed.

Lemma scrape_artists_unused (E : Env) (domain : string) :
  (forall w0 a,
      match http_html E w0 (Main.search_url domain a) with
      | HtmlError => True
      | HtmlPage status _ => status <> 200%Z
      end) ->
  forall artists w,
    fst (Main.scrape_artists E domain artists w) = []
    /\ geo_calls (snd (Main.scrape_artists E domain artists w)) = geo_calls w
    /\ clock_reads (snd (Main.scrape_artists E domain artists w))
       = clock_reads w.
Proof.
  intros Hbad. induction artists as [|a artists IH]; intros w.
  - cbn. repeat split.
  - cbn [Main.scrape_artists]. unfold bind, ret.
    destruct (scrape_artist_unused E domain a w (Hbad w a))
      as (w1 & H1 & Hg1 & Hc1).
    rewrite H1. destruct (IH w1) as (Hf & Hg & Hc).
    destruct (Main.scrape_artists E domain artists w1) as [more w2].
    cbn in *. subst more. rewrite Hg, Hc. repeat split; assumption.
Qed.

Lemma search_artist_events_unused (E : Env) (a : string) (w : World) :
  (forall u ps,
      match http_api E w u ps with
      | ApiError => True
      | ApiResponse status body => status <> 200%Z \/ body = None
      end) ->
  exists w1,
    Ticketmaster.search_artist_events E a w = ([], w1)
    /\ clock_reads w1 = clock_reads w.
Proof.
  intros Hbad. unfold Ticketmaster.search_artist_events.
  match goal with
  | |- context [http_api E w ?u ?ps] =>
      specialize (Hbad u ps); destruct (http_api E w u ps) as [|status body]
  end.
  - eexists. split; reflexivity.
  - destruct Hbad as [Hs | ->].
    + apply Z.eqb_neq in Hs. rewrite Hs. eexists. split; reflexivity.
    + destruct (status =? 200)%Z; eexists; split; reflexivity.
Qed.

Lemma search_all_unused (E : Env) :
  (forall w0 u ps,
      match http_api E w0 u ps with
      | ApiError => True
      | ApiResponse status body => status <> 200%Z \/ body = None
      end) ->
  forall artists w,
    fst (Ticketmaster.search_all E artists w) = []
    /\ clock_reads (snd (Ticketmaster.search_all E artists w)) = clock_reads w.
Proof.
  intros Hbad. induction artists as [|a artists IH]; intros w.
  - cbn. repeat split.
  - cbn [Ticketmaster.search_all]. unfold bind, ret.
    destruct (search_artist_events_unused E a w (Hbad w)) as (w1 & H1 & Hc1).
    rewrite H1. destruct (IH w1) as (Hf & Hc).
    destruct (Ticketmaster.search_all E artists w1) as [more w2].
    cbn in *. subst more. rewrite Hc. split; [reflexivity | assumption].
Qed.

(** X21.  A page whose status is not 200 is not looked at: an HTML adapter
    that gets only such pages or exceptions emits nothing, asks the
    geocoder nothing and reads no clock.  Likewise the API search emits
    nothing when every response is an exception, has a status other than
    200 or a body that cannot be decoded. *)
Theorem unused_answers_give_nothing (E : Env) :
  ((forall w0 a domain,
       match http_html E w0 (Main.search_url domain a) with
       | HtmlError => True
       | HtmlPage status _ => status <> 200%Z
       end) ->
   forall domain artists w,
     fst (Main.scrape_artists E domain artists w) = []
     /\ geo_calls (snd (Main.scrape_artists E domain artists w)) = geo_calls w
     /\ clock_reads (snd (Main.scrape_artists E domain artists w))
        = clock_reads w)
  /\ ((forall w0 u ps,
         match http_api E w0 u ps with
         | ApiError => True
         | ApiResponse status body => status <> 200%Z \/ body = None
         end) ->
      forall artists w,
        fst (Ticketmaster.search_all E artists w) = []
        /\ clock_reads (snd (Ticketmaster.search_all E artists w))
           = clock_reads w).
Proof.
  split.
  - intros Hbad domain artists w.
    apply scrape_artists_unused. intros w0 a. apply Hbad.
  - intros Hbad artists w. apply search_all_unused. exact Hbad.
Qed.

Lemma unused_answers_give_nothing_witness :
  fst (Main.scrape_artists Doubles.env_all_down "eventim.pl"
         Main.TARGET_ARTISTS world0) = []
  /\ fst (Ticketmaster.search_all Doubles.env_all_down Main.TARGET_ARTISTS
            world0) = [].
Proof.
  destruct (unused_answers_give_nothing Doubles.env_all_down) as [Hhtml Hapi].
  split.
  - apply Hhtml. intros w0 a domain. exact I.
  - apply Hapi. intros w0 u ps. exact I.
Defined.

(** *** The requests of a run *)

Lemma scrape_events_requests (E : Env) (artists : list string) (w : World) :
  exists found w',
    Ticketmaster.scrape_events E artists w = (Ok found, w')
    /\ http_calls w' = (http_calls w ++ api_requests E artists)%list.
Proof.
  unfold Ticketmaster.scrape_events, api_requests, bind, ret.
  destruct (tm_api_key E) as [key|] eqn:Hkey;
    [destruct (String.eqb key "")|];
    try (exists [], w; split; [reflexivity | now rewrite app_nil_r]).
  destruct (search_all_world E artists w) as (found & groups & H & _).
  rewrite H. eexists. eexists. split; [reflexivity|].
  cbn [http_calls]. unfold Ticketmaster.api_key_value. rewrite Hkey.
  reflexivity.
Qed.

(** X22.  The requests of a run, whatever the answers are: one to
    eventim.pl for every monitored artist, then one to eventim.de for every
    monitored artist, then, if a key that is not empty is configured, one
    to the API for every monitored artist; 30 or 45 requests in all. *)
Theorem requests_of_a_run (E : Env) (w : World) :
  http_calls (snd (Main.manual_scrape E w))
  = (http_calls w
     ++ map (fun a => HtmlGet (Main.search_url "eventim.pl" a))
            Main.TARGET_ARTISTS
     ++ map (fun a => HtmlGet (Main.search_url "eventim.de" a))
            Main.TARGET_ARTISTS
     ++ api_requests E Main.TARGET_ARTISTS)%list
  /\ (List.length (http_calls (snd (Main.manual_scrape E w)))
      = List.length (http_calls w) + 30
      \/ List.length (http_calls (snd (Main.manual_scrape E w)))
         = List.length (http_calls w) + 45).
Proof.
  assert (Hcalls :
    http_calls (snd (Main.manual_scrape E w))
    = (http_calls w
       ++ map (fun a => HtmlGet (Main.search_url "eventim.pl" a))
              Main.TARGET_ARTISTS
       ++ map (fun a => HtmlGet (Main.search_url "eventim.de" a))
              Main.TARGET_ARTISTS
       ++ api_requests E Main.TARGET_ARTISTS)%list).
  { unfold Main.manual_scrape, Main.scrape_all, Main.close_session.
    unfold Main.scrape_eventim_pl, Main.scrape_eventim_de.
    destruct (scrape_eventim_world E "eventim.pl" w)
      as (pl & l1 & p1 & g1 & Hpl & _).
    rewrite Hpl.
    match type of Hpl with _ = (_, ?w1) =>
      destruct (scrape_eventim_world E "eventim.de" w1)
        as (de & l2 & p2 & g2 & Hde & _)
    end.
    rewrite Hde.
    match type of Hde with _ = (_, ?w2) =>
      destruct (scrape_events_requests E Main.TARGET_ARTISTS w2)
        as (tm & w3 & Htm & Hreq)
    end.
    rewrite Htm. cbn [http_calls] in Hreq.
    destruct (save_events_to_db_world E (pl ++ de ++ tm)%list w3)
      as (done & rest & reads & _ & Hw & _).
    destruct (Main.save_events_to_db E (pl ++ de ++ tm)%list w3)
      as [[u|msg] w4]; cbn [fst snd] in *; rewrite Hw;
      cbn [snd set_session http_calls];
      rewrite Hreq, <- !app_assoc; reflexivity. }
  split; [exact Hcalls|].
  rewrite Hcalls, !length_app, !length_map.
  unfold api_requests.
  destruct (tm_api_key E) as [key|]; [destruct (String.eqb key "")|];
    rewrite ?length_map; cbn [List.length Main.TARGET_ARTISTS]; lia.
Qed.

(** *** The location of an API event *)

Lemma place_has_comma (a b : string) : has_char "," (a ++ ", " ++ b) = true.
Proof.
  rewrite has_char_append. cbn. apply orb_true_r.
Qed.

(** X23.  An event of the API adapter whose location is "Unknown" has no
    coordinates: that location is given only to an event without a venue,
    since the location built from a venue always contains a comma. *)
Theorem unknown_api_event_has_no_coordinates (E : Env) (event : pyval)
    (who : string) (w w' : World) (e : Event) :
  Ticketmaster.parse_event E event who w = (Ticketmaster.Value e, w') ->
  (location e = "Unknown" -> coordinates e = None)
  /\ (location e <> "Unknown" -> has_char "," (location e) = true).
Proof.
  unfold Ticketmaster.parse_event.
  destruct (Ticketmaster.event_head event) as [[[name url] d]| |]; simpl;
    try discriminate.
  destruct (Ticketmaster.event_place E event) as [[place found]| |] eqn:Hp;
    simpl; try discriminate.
  intros H; injection H as <- _. simpl.
  unfold Ticketmaster.event_place in Hp.
  apply step_bind_value in Hp. destruct Hp as (embedded & _ & Hp).
  apply step_bind_value in Hp. destruct Hp as (venues & _ & Hp).
  destruct (truthy venues).
  - apply step_bind_value in Hp. destruct Hp as (venue & _ & Hp).
    apply step_bind_value in Hp. destruct Hp as (text & Ht & Hp).
    apply step_bind_value in Hp. destruct Hp as (c & _ & Hp).
    injection Hp as <- <-.
    unfold Ticketmaster.venue_place in Ht.
    apply step_bind_value in Ht. destruct Ht as (co & _ & Ht).
    apply step_bind_value in Ht. destruct Ht as (city & _ & Ht).
    apply step_bind_value in Ht. destruct Ht as (cc & _ & Ht).
    apply step_bind_value in Ht. destruct Ht as (country & _ & Ht).
    injection Ht as <-.
    pose proof (place_has_comma (fmt E city) (fmt E country)) as Hcomma.
    split.
    + intros Hu. simpl in Hcomma. rewrite Hu in Hcomma. discriminate Hcomma.
    + intros _. exact Hcomma.
  - injection Hp as <- <-. split; [reflexivity|].
    intros Hne. exfalso. apply Hne. reflexivity.
Qed.

Lemma unknown_api_event_has_no_coordinates_witness :
  coordinates (mkEvent (PStr "") "Fisher" (PStr "") "Unknown" "ticketmaster"
                       (PStr "") None "2025-01-01T12:00:00") = None
  /\ has_char "," "Berlin, DE" = true.
Proof.
  split.
  - apply (proj1 (unknown_api_event_has_no_coordinates Doubles.env_fine
                    Doubles.event_empty "Fisher" world0 (tick world0) _
                    eq_refl)).
    reflexivity.
  - apply (proj2 (unknown_api_event_has_no_coordinates Doubles.env_fine
                    (Doubles.event_at "Klubnacht" Doubles.venue_berlin)
                    "Fisher" world0 (tick world0) _ eq_refl)).
    discriminate.
Defined.

(** *** A venue at latitude or longitude zero *)

(** C9, as the code has it.  Take a response whose list of events holds an
    event that is otherwise well formed and whose first venue has a
    location in which the latitude or the longitude is missing or converts
    to 0.0, the other of the two converting to a float as well.  Then no
    distance is computed for that venue and [parse_events] emits the event,
    at its place between the events emitted before and after it, with the
    place of the venue and with coordinates absent; so a venue at latitude 0
    or longitude 0 is never excluded by distance. *)
Theorem zero_coordinate_event_is_emitted (E : Env) (who : string) (w : World)
    (items inner : list (string * pyval)) (before after : list pyval)
    (event name url d embedded venues venue loc : pyval) (place : string)
    (lat lon : float) :
  dict_get items "_embedded" = Some (PDict inner) ->
  dict_get inner "events" = Some (PList (before ++ event :: after)) ->
  Ticketmaster.event_head event = Ticketmaster.Value (name, url, d) ->
  py_get event "_embedded" (PDict []) = Some embedded ->
  py_get embedded "venues" (PList []) = Some venues ->
  truthy venues = true ->
  py_index0 venues = Some venue ->
  Ticketmaster.venue_place E venue = Ticketmaster.Value place ->
  py_get venue "location" PNone = Some loc ->
  truthy loc = true ->
  coordinate_reads E loc "latitude" lat ->
  coordinate_reads E loc "longitude" lon ->
  PrimFloat.eqb lat 0 = true \/ PrimFloat.eqb lon 0 = true ->
  Ticketmaster.venue_coordinates E venue = Ticketmaster.Value None
  /\ exists found_before w1 found_after w2,
       Ticketmaster.parse_event_list E before who w = (found_before, w1)
       /\ Ticketmaster.parse_event_list E after who (tick w1)
          = (found_after, w2)
       /\ Ticketmaster.parse_events E (PDict items) who w
          = (Some (found_before
                   ++ mkEvent name who d place "ticketmaster" url None
                              (now_iso E w1)
                   :: found_after)%list,
             w2).
Proof.
  intros Hemb Hev Hh He Hv Ht Hi Hp Hl Hlt Hla Hlo Hz.
  split.
  { exact (venue_coordinates_zero E venue loc lat lon Hl Hlt Hla Hlo Hz). }
  destruct (Ticketmaster.parse_event_list E before who w)
    as [found_before w1] eqn:Hb.
  destruct (Ticketmaster.parse_event_list E after who (tick w1))
    as [found_after w2] eqn:Ha.
  exists found_before, w1, found_after, w2.
  split; [reflexivity|]. split; [exact Ha|].
  unfold Ticketmaster.parse_events.
  cbn [py_contains py_getitem]. rewrite Hemb.
  cbn [py_contains py_getitem]. rewrite Hev.
  cbn [py_iter].
  rewrite parse_event_list_app, Hb.
  cbn [Ticketmaster.parse_event_list]. unfold bind, ret.
  rewrite (proj2 (parse_event_zero_coordinate E event who w1 name url d
                    embedded venues venue loc place lat lon
                    Hh He Hv Ht Hi Hp Hl Hlt Hla Hlo Hz)).
  rewrite Ha. reflexivity.
Qed.

Lemma zero_coordinate_event_is_emitted_witness :
  fst (Ticketmaster.parse_events Doubles.env_fine
         (Doubles.response_of
            [Doubles.event_at "Klubnacht" Doubles.venue_berlin;
             Doubles.event_at "Night in Praha" Doubles.venue_no_latitude;
             Doubles.event_at "Mitad del Mundo" Doubles.venue_equator])
         "Fisher" world0)
  = Some [mkEvent (PStr "Klubnacht") "Fisher" (PStr "2025-04-12")
                  "Berlin, DE" "ticketmaster"
                  (PStr "https://www.ticketmaster.de/event/1")
                  (Some (52.52, 13.405)%float) "2025-01-01T12:00:00";
          mkEvent (PStr "Night in Praha") "Fisher" (PStr "2025-04-12")
                  "Praha, CZ" "ticketmaster"
                  (PStr "https://www.ticketmaster.de/event/1") None
                  "2025-01-01T12:00:00";
          mkEvent (PStr "Mitad del Mundo") "Fisher" (PStr "2025-04-12")
                  "Quito, EC" "ticketmaster"
                  (PStr "https://www.ticketmaster.de/event/1") None
                  "2025-01-01T12:00:00"].
Proof.
  destruct (zero_coordinate_event_is_emitted Doubles.env_fine "Fisher" world0
              [("_embedded",
                PDict [("events",
                        PList [Doubles.event_at "Klubnacht" Doubles.venue_berlin;
                               Doubles.event_at "Night in Praha"
                                 Doubles.venue_no_latitude;
                               Doubles.event_at "Mitad del Mundo"
                                 Doubles.venue_equator])])]
              [("events",
                PList [Doubles.event_at "Klubnacht" Doubles.venue_berlin;
                       Doubles.event_at "Night in Praha"
                         Doubles.venue_no_latitude;
                       Doubles.event_at "Mitad del Mundo"
                         Doubles.venue_equator])]
              [Doubles.event_at "Klubnacht" Doubles.venue_berlin]
              [Doubles.event_at "Mitad del Mundo" Doubles.venue_equator]
              (Doubles.event_at "Night in Praha" Doubles.venue_no_latitude)
              (PStr "Night in Praha")
              (PStr "https://www.ticketmaster.de/event/1")
              (PStr "2025-04-12")
              (PDict [("venues", PList [Doubles.venue_no_latitude])])
              (PList [Doubles.venue_no_latitude])
              Doubles.venue_no_latitude
              (PDict [("longitude", PStr "13.405")]) "Praha, CZ"
              0%float 13.405%float
              eq_refl eq_refl eq_refl eq_refl eq_refl eq_refl eq_refl eq_refl
              eq_refl eq_refl
              (missing_coordinate_reads_zero Doubles.env_fine
                 [("longitude", PStr "13.405")] "latitude" eq_refl)
              (ex_intro _ (PStr "13.405") (conj eq_refl eq_refl))
              (or_introl eq_refl))
    as (_ & found_before & w1 & found_after & w2 & Hb & Ha & Hrun).
  vm_compute in Hb. injection Hb as <- <-.
  vm_compute in Ha. injection Ha as <- <-.
  unfold Doubles.response_of. rewrite Hrun. reflexivity.
Defined.

(** C9 fails as stated: the location of this venue gives no latitude, and a
    longitude that is no number.  Converting the longitude raises, the loop
    goes on to the next event, and nothing is emitted; the same event with
    a venue that has no location at all is emitted, without coordinates. *)
Lemma unreadable_longitude_skips_event :
  py_get Doubles.venue_bad_longitude "location" PNone
  = Some (PDict [("longitude", PStr "abc")])
  /\ dict_get [("longitude", PStr "abc")] "latitude" = None
  /\ fst (Ticketmaster.parse_events Doubles.env_fine
            (Doubles.response_of
               [Doubles.event_at "Night in Praha" Doubles.venue_bad_longitude])
            "Fisher" world0) = Some []
  /\ exists e,
       fst (Ticketmaster.parse_events Doubles.env_fine
              (Doubles.response_of
                 [Doubles.event_at "Night in Praha" Doubles.venue_no_location])
              "Fisher" world0) = Some [e]
       /\ coordinates e = None.
Proof.
  split; [reflexivity|]. split; [reflexivity|]. split; [vm_compute; reflexivity|].
  eexists. split; [vm_compute; reflexivity | reflexivity].
Qed.

(** A save that fails half way keeps the rows inserted before the failure:
    here the database refuses every row after the first, the run ends with
    status 500, and one row has been inserted. *)
Example failed_save_keeps_first_row :
  fst (Main.manual_scrape Doubles.env_db_full world0)
  = Main.HTTP500 "Scraping failed: disk full"
  /\ List.length (db_rows (snd (Main.manual_scrape Doubles.env_db_full world0)))
     = 1
  /\ clock_reads (snd (Main.manual_scrape Doubles.env_db_full world0)) = 17.
Proof. vm_compute. repeat split. Qed.
